(** * Interactive_Parameter_Explorer.py: the spectral processing functions

    A shallow embedding of the processing functions of
    [Interactive_Parameter_Explorer.py] (peak detection, centroiding,
    scan averaging, energy interpolation, fragment-ion labelling, the
    index of the scans by collision energy and the selection of the
    predefined files), followed by the properties stated about them.

    Conventions of the embedding:
    - The arrays of a scan are float64 arrays, as the mzML reader returns
      them, and the scan window limits and the start time are Python
      floats.  A finite float is modelled by the rational it denotes
      ([Q]); equalities on computed values are stated with [==].
    - Where the rounding of a floating-point operation decides what is
      returned, the operation is the exact one followed by the rounding
      to the nearest double ([Ieee.float64]), or to the nearest single
      for the float32 array of the centroids ([Ieee.float32]): the
      relative threshold of [peak_detection], the quotient of
      [return_centroid], the grid of [np.arange].  The differences of
      [np.diff], the interpolation ([np.interp]), the accumulation and
      the division of the averager and of the interpolator are kept
      exact: the properties about them are stated through these
      operations and hold of the program up to their rounding.  Overflow
      of a double operation, infinities and NaN in the inputs, and the
      sign of zero are not modelled.
    - The IEEE results of a division by zero are kept ([fval]).
    - A raised exception is a value [Raise e]; the first exception aborts
      the computation, as in Python.
    - Strings are ASCII strings.
    - The nested [scanList] dictionary of a scan lives in a store and is
      referred to by its location, so that two dictionaries can share it. *)

From Stdlib Require Import ZArith QArith Qround Qabs Qpower String Ascii List Sorted Lia Lqa DecimalString DecimalPos.
From stdpp Require Import gmap list strings.

Open Scope string_scope.

(** ** Exceptions and results *)

Inductive exn : Type :=
  | IndexError
  | ValueError
  | KeyError
  | ZeroDivisionError
  | LibraryError
  | TargetOutsideRange (target_energy : Q).

Inductive result (A : Type) : Type :=
  | Ok (a : A)
  | Raise (e : exn).

Arguments Ok {A} a.
Arguments Raise {A} e.

Definition bind {A B : Type} (m : result A) (k : A -> result B) : result B :=
  match m with
  | Ok a => k a
  | Raise e => Raise e
  end.

Notation "'let*' x ':=' m 'in' k" := (bind m (fun x => k))
  (at level 10, x name, m at level 100, k at level 200).

Fixpoint mapM {A B : Type} (f : A -> result B) (l : list A) : result (list B) :=
  match l with
  | [] => Ok []
  | x :: l' =>
      let* y := f x in
      let* ys := mapM f l' in
      Ok (y :: ys)
  end.

Definition is_ok {A : Type} (m : result A) : Prop := exists a, m = Ok a.

(** ** Python primitives *)

Module Py.

(** [str(n)] for an integer. *)
Definition str (z : Z) : string := NilZero.string_of_int (Z.to_int z).

(** The whitespace that [int()] strips from an ASCII string: the
    characters 9 to 13 and the space. *)
Definition is_space (c : ascii) : bool :=
  let n := nat_of_ascii c in
  ((9 <=? n)%nat && (n <=? 13)%nat) || (n =? 32)%nat.

Fixpoint lstrip (cs : list ascii) : list ascii :=
  match cs with
  | c :: cs' => if is_space c then lstrip cs' else cs
  | [] => []
  end.

Definition strip (cs : list ascii) : list ascii :=
  rev (lstrip (rev (lstrip cs))).

Definition digit_of (c : ascii) : option Z :=
  let n := nat_of_ascii c in
  if ((48 <=? n)%nat && (n <=? 57)%nat) then Some (Z.of_nat (n - 48)) else None.

(** Decimal digits, a single underscore allowed between two digits. *)
Fixpoint digits (acc : Z) (after_digit : bool) (cs : list ascii) : option Z :=
  match cs with
  | [] => if after_digit then Some acc else None
  | c :: cs' =>
      match digit_of c with
      | Some d => digits (10 * acc + d) true cs'
      | None =>
          if (Ascii.eqb c "_" && after_digit)%bool then digits acc false cs'
          else None
      end
  end.

(** [int(s)] for a string: [ValueError] unless [s] is an optionally signed
    decimal literal, possibly surrounded by whitespace. *)
Definition int (s : string) : result Z :=
  let body :=
    match strip (list_ascii_of_string s) with
    | "+"%char :: cs => digits 0 false cs
    | "-"%char :: cs => Z.opp <$> digits 0 false cs
    | cs => digits 0 false cs
    end in
  match body with
  | Some z => Ok z
  | None => Raise ValueError
  end.

(** [int(x)] for a float: truncation towards zero. *)
Definition int_of_float (q : Q) : Z := Z.quot (Qnum q) (Z.pos (Qden q)).

(** [s[0]] for a string. *)
Definition first_char (s : string) : result string :=
  match s with
  | String c _ => Ok (String c EmptyString)
  | EmptyString => Raise IndexError
  end.

(** [s[1:]] for a string. *)
Definition tail (s : string) : string :=
  match s with
  | String _ s' => s'
  | EmptyString => EmptyString
  end.

(** Normalisation of a slice bound against a length, as Python does. *)
Definition clamp (n : nat) (i : Z) : nat :=
  if (i <? 0)%Z then Z.to_nat (Z.max (i + Z.of_nat n) 0)
  else Z.to_nat (Z.min i (Z.of_nat n)).

(** [l[:stop]] and [l[start:]]. *)
Definition slice_to {A : Type} (stop : Z) (l : list A) : list A :=
  take (clamp (length l) stop) l.

Definition slice_from {A : Type} (start : Z) (l : list A) : list A :=
  drop (clamp (length l) start) l.

(** [''.join(l)]. *)
Definition join (l : list string) : string := String.concat "" l.

(** [l[0]] and [l[-1]] for a list. *)
Definition first {A : Type} (l : list A) : result A :=
  match l with
  | x :: _ => Ok x
  | [] => Raise IndexError
  end.

Definition last {A : Type} (l : list A) : result A :=
  match rev l with
  | x :: _ => Ok x
  | [] => Raise IndexError
  end.

(** [l[i]] for a list and a non-negative index. *)
Definition index {A : Type} (l : list A) (i : nat) : result A :=
  match l !! i with
  | Some x => Ok x
  | None => Raise IndexError
  end.

End Py.

(** ** Fragment ions: [get_fragments] *)

Record fragment (M : Type) : Type := Fragment {
  f_seq : string;
  f_ion : string;
  f_mz : M;
  f_type : string
}.

Arguments Fragment {M} _ _ _ _.
Arguments f_seq {M} _.
Arguments f_ion {M} _.
Arguments f_mz {M} _.
Arguments f_type {M} _.

Definition is_nterm (ion_type : string) : bool :=
  (String.eqb ion_type "a" || String.eqb ion_type "b" || String.eqb ion_type "c")%bool.

Definition is_cterm (ion_type : string) : bool :=
  (String.eqb ion_type "y" || String.eqb ion_type "z" || String.eqb ion_type "x")%bool.

Section FragmentIons.

(** The two functions of the [pyteomics] library that [get_fragments]
    calls: [parser.parse], which splits a sequence into residues, and
    [mass.fast_mass2] (with the module's [aa_mass] table), which gives
    the m/z of a subsequence for an ion type and a charge.  Both can
    raise.  [M] is the type of the masses. *)
Context {M : Type}.
Variable parse : string -> result (list string).
Variable fast_mass2 : string -> string -> Z -> result M.

(** The subsequence of an ion (lines 87-90). *)
Definition ion_seq (_sequence : list string) (ion_type : string) (pos : Z) : string :=
  if is_nterm ion_type then Py.join (Py.slice_to pos _sequence)
  else Py.join (Py.slice_from (- pos) _sequence).

(** The label of an ion (lines 96-101). *)
Definition ion_label (_sequence : list string) (ion ion_type : string) (pos : Z) : string :=
  if is_nterm ion_type then ion_type ++ Py.str pos
  else if is_cterm ion_type
       then ion_type ++ Py.str (Z.of_nat (length _sequence) - pos + 1)
       else ion.

(** The body of the loop over [fragment_ions]. *)
Definition fragment_of (_sequence : list string) (selected_charge_state : Z)
    (ion : string) : result (fragment M) :=
  let* ion_type := Py.first_char ion in
  let* pos := Py.int (Py.tail ion) in
  let seq := ion_seq _sequence ion_type pos in
  let* _mass := fast_mass2 seq ion_type selected_charge_state in
  Ok (Fragment seq (ion_label _sequence ion ion_type pos) _mass ion_type).

Definition get_fragments (sequence : string) (fragment_ions : list string)
    (selected_charge_state : Z) : result (list (fragment M)) :=
  let* _sequence := parse sequence in
  mapM (fragment_of _sequence selected_charge_state) fragment_ions.

End FragmentIons.

(** Stand-ins for the two library functions, used to run [get_fragments]
    on plain one-letter sequences: the tokenizer makes one residue of every
    capital letter and refuses anything else, and the mass is kept as the
    unevaluated call (subsequence, ion type, charge). *)
Module Plain.

Definition is_upper (c : ascii) : bool :=
  let n := nat_of_ascii c in ((65 <=? n)%nat && (n <=? 90)%nat).

Fixpoint residues (s : string) : option (list string) :=
  match s with
  | EmptyString => Some []
  | String c s' =>
      if is_upper c then cons (String c EmptyString) <$> residues s' else None
  end.

Definition parse (s : string) : result (list string) :=
  match residues s with
  | Some (r :: rs) => Ok (r :: rs)
  | _ => Raise LibraryError
  end.

Definition mass : Type := string * string * Z.

Definition fast_mass2 (seq ion_type : string) (charge : Z) : result mass :=
  Ok (seq, ion_type, charge).

End Plain.

(** ** Floating-point rounding *)

(** A finite binary floating-point number of precision [prec] is a
    rational [m * 2^e] with [|m| < 2^prec] and [e >= emin].  An arithmetic
    operation on floats returns the exact result rounded to the nearest
    such number, the one with the even [m] when two are equally near. *)
Module Ieee.

Definition pow2 (k : Z) : Q := (2 ^ k)%Q.

(** The integer [k] with [2^k <= q < 2^(k+1)], for [q > 0]. *)
Definition log2 (q : Q) : Z :=
  let k := (Z.log2 (Qnum q) - Z.log2 (Z.pos (Qden q)))%Z in
  if Qle_bool (pow2 k) q then k else (k - 1)%Z.

(** The integer nearest to [q], the even one of the two in a tie. *)
Definition nearest_even (q : Q) : Z :=
  let f := Qfloor q in
  let d := (q - inject_Z f)%Q in
  if Qle_bool d (1 # 2) then
    (if Qle_bool (1 # 2) d then (if Z.even f then f else (f + 1)%Z) else f)
  else (f + 1)%Z.

(** Rounding of a positive rational: the exponent is that of the binade
    of [q], or [emin] for a subnormal. *)
Definition round_pos (prec emin : Z) (q : Q) : Q :=
  let e := Z.max emin (log2 q - prec + 1) in
  (inject_Z (nearest_even (q / pow2 e)) * pow2 e)%Q.

Definition round (prec emin : Z) (q : Q) : Q :=
  match Qnum q with
  | Z0 => 0%Q
  | Zpos _ => round_pos prec emin q
  | Zneg _ => (- round_pos prec emin (- q))%Q
  end.

(** binary64 and binary32. *)
Definition float64 : Q -> Q := round 53 (-1074).
Definition float32 : Q -> Q := round 24 (-149).

(** The rational is a double. *)
Definition is_float64 (q : Q) : bool := Qeq_bool (float64 q) q.

(** The four operations on doubles. *)
Definition add (a b : Q) : Q := float64 (a + b).
Definition sub (a b : Q) : Q := float64 (a - b).
Definition mul (a b : Q) : Q := float64 (a * b).
Definition div (a b : Q) : Q := float64 (a / b).

End Ieee.

(** ** numpy primitives on one-dimensional float arrays *)

(** The result of a float division: numpy returns [nan] or an infinity
    (with a warning) where the divisor is zero, and does not raise. *)
Inductive fval : Type :=
  | Finite (q : Q)
  | NaN
  | PosInf
  | NegInf.

Module Np.

Definition lt (a b : Q) : bool := negb (Qle_bool b a).

(** [a / b] for two doubles. *)
Definition divide (a b : Q) : fval :=
  if Qeq_bool b 0 then
    (if Qeq_bool a 0 then NaN else if lt 0 a then PosInf else NegInf)
  else Finite (Ieee.div a b).

(** The value stored in a float32 array: the nearest single, an infinity
    beyond the largest single. *)
Definition float32 (v : fval) : fval :=
  match v with
  | Finite q =>
      let r := Ieee.float32 q in
      if Qle_bool (Ieee.pow2 128) r then PosInf
      else if Qle_bool r (- Ieee.pow2 128) then NegInf
      else Finite r
  | _ => v
  end.

(** The exact sum of a list of numbers, and the exact sum of two arrays
    (the accumulation of the averager). *)
Definition sum (l : list Q) : Q := foldr Qplus 0%Q l.

Definition add (a b : list Q) : list Q := zip_with Qplus a b.

(** [a * b] for two float64 arrays: the products, in doubles. *)
Definition multiply (a b : list Q) : list Q := zip_with Ieee.mul a b.

(** [np.sum(a)] for a float64 array: numpy's pairwise summation, in
    doubles.  Fewer than 8 values are added from left to right.  Up to 128
    values are added into 8 running sums, value [i] into sum [i mod 8] as
    long as full blocks of 8 last; the 8 sums are added as
    [((r0 + r1) + (r2 + r3)) + ((r4 + r5) + (r6 + r7))], and the values
    after the last full block are added to that from left to right.  A
    longer array is split near its middle, at a multiple of 8, and the
    sums of the two parts are added. *)
Definition sum_from (res : Q) (a : list Q) : Q := foldl Ieee.add res a.

Fixpoint accumulate (r a : list Q) (blocks : nat) : list Q :=
  match blocks with
  | O => r
  | S blocks' => accumulate (zip_with Ieee.add r (take 8 a)) (drop 8 a) blocks'
  end.

Definition unrolled_sum (a : list Q) : Q :=
  let n := length a in
  let r := accumulate (take 8 a) (drop 8 a) (n / 8 - 1) in
  let r_ := fun j : nat => nth j r 0%Q in
  let res :=
    Ieee.add (Ieee.add (Ieee.add (r_ 0%nat) (r_ 1%nat)) (Ieee.add (r_ 2%nat) (r_ 3%nat)))
             (Ieee.add (Ieee.add (r_ 4%nat) (r_ 5%nat)) (Ieee.add (r_ 6%nat) (r_ 7%nat))) in
  sum_from res (drop (n - n mod 8) a).

Fixpoint pairwise_sum (fuel : nat) (a : list Q) : Q :=
  let n := length a in
  if (n <? 8)%nat then sum_from 0%Q a
  else if (n <=? 128)%nat then unrolled_sum a
  else
    match fuel with
    | O => 0%Q
    | S fuel' =>
        let n2 := (n / 2 - (n / 2) mod 8)%nat in
        Ieee.add (pairwise_sum fuel' (take n2 a)) (pairwise_sum fuel' (drop n2 a))
    end.

(** The recursion halves the array, so the length is fuel enough
    ([sum64_split] below). *)
Definition sum64 (a : list Q) : Q := pairwise_sum (length a) a.

Definition zeros (n : nat) : list Q := replicate n 0%Q.

Definition qmax (a b : Q) : Q := if Qle_bool a b then b else a.

Definition qmin (a b : Q) : Q := if Qle_bool a b then a else b.

(** [a.max()] and [np.min(a)]: [ValueError] on an empty array. *)
Definition max (a : list Q) : result Q :=
  match a with
  | [] => Raise ValueError
  | x :: a' => Ok (foldl qmax x a')
  end.

Definition min (a : list Q) : result Q :=
  match a with
  | [] => Raise ValueError
  | x :: a' => Ok (foldl qmin x a')
  end.

(** [np.where(a > t)[0]]: the indices, in increasing order. *)
Fixpoint where_gt_from (i : nat) (a : list Q) (t : Q) : list nat :=
  match a with
  | [] => []
  | x :: a' =>
      if lt t x then i :: where_gt_from (S i) a' t else where_gt_from (S i) a' t
  end.

Definition where_gt (a : list Q) (t : Q) : list nat := where_gt_from 0 a t.

(** [np.diff(a)]; the differences are kept exact. *)
Fixpoint diff (a : list Q) : list Q :=
  match a with
  | x :: (y :: _) as a' => (y - x)%Q :: diff a'
  | _ => []
  end.

(** [np.unique(a)]: the sorted distinct values. *)
Fixpoint insert_sorted (x : Q) (l : list Q) : list Q :=
  match l with
  | [] => [x]
  | y :: l' =>
      if Qeq_bool x y then l
      else if Qle_bool x y then x :: l
      else y :: insert_sorted x l'
  end.

Definition unique (a : list Q) : list Q := foldr insert_sorted [] a.

(** [np.arange(start, stop, step)] on floats, in doubles as numpy computes
    it: [ceil((stop - start) / step)] values; the first is [start], the
    second [start + step], and the value at [i >= 2] is [start + i * delta]
    where [delta] is the second value minus the first.  The quotient is a
    division of Python floats: a zero step raises [ZeroDivisionError]. *)
Definition arange (start stop step : Q) : result (list Q) :=
  if Qeq_bool step 0 then Raise ZeroDivisionError
  else
    let n := Z.to_nat (Qceiling (Ieee.div (Ieee.sub stop start) step)) in
    let next := Ieee.add start step in
    let delta := Ieee.sub next start in
    Ok (map (fun i : nat =>
               match i with
               | O => start
               | S O => next
               | _ => Ieee.add start (Ieee.mul (inject_Z (Z.of_nat i)) delta)
               end) (seq 0 n)).

(** [np.interp] at one point [x], for sample points [(x0, y0) :: rest] in
    increasing order of abscissa (as numpy requires) and [x0 <= x]: the
    sample value at a sample point, the last value at or after the last
    point, and the value on the chord in between. *)
Fixpoint interp_from (x x0 y0 : Q) (rest : list (Q * Q)) : Q :=
  match rest with
  | [] => y0
  | (x1, y1) :: rest' =>
      if lt x x1 then
        (if Qeq_bool x0 x then y0
         else ((y1 - y0) / (x1 - x0) * (x - x0) + y0)%Q)
      else interp_from x x1 y1 rest'
  end.

Definition last_abscissa (x0 : Q) (rest : list (Q * Q)) : Q :=
  List.last (map fst rest) x0.

Definition interp_at (left right : Q) (x0 y0 : Q) (rest : list (Q * Q)) (x : Q) : Q :=
  if lt x x0 then left
  else if lt (last_abscissa x0 rest) x then right
  else interp_from x x0 y0 rest.

(** [np.interp(x, xp, fp, left, right)] for an array [x]: [ValueError] when
    [xp] is empty or [fp] has another length. *)
Definition interp (x xp fp : list Q) (left right : Q) : result (list Q) :=
  if negb (length xp =? length fp)%nat then Raise ValueError
  else
    match zip xp fp with
    | [] => Raise ValueError
    | (x0, y0) :: rest => Ok (map (interp_at left right x0 y0 rest) x)
    end.

(** [np.interp(x, xp, fp)] for a scalar [x]: outside the sample points the
    first and the last sample values are returned. *)
Definition interp_scalar (x : Q) (xp fp : list Q) : result Q :=
  if negb (length xp =? length fp)%nat then Raise ValueError
  else
    match zip xp fp with
    | [] => Raise ValueError
    | (x0, y0) :: rest =>
        Ok (interp_at y0 (List.last (map snd rest) y0) x0 y0 rest x)
    end.

(** [a[k]] for an integer [k]: negative indices count from the end. *)
Definition item (a : list Q) (k : Z) : result Q :=
  let n := Z.of_nat (length a) in
  if ((0 <=? k) && (k <? n))%Z then Py.index a (Z.to_nat k)
  else if ((- n <=? k) && (k <? 0))%Z then Py.index a (Z.to_nat (k + n))
  else Raise IndexError.

(** [a[range(lo, hi)]]: the items at [lo], ..., [hi - 1]. *)
Definition take_range (a : list Q) (lo hi : Z) : result (list Q) :=
  mapM (fun i : nat => item a (lo + Z.of_nat i)) (seq 0 (Z.to_nat (hi - lo))).

End Np.

(** ** Scans, spectra and the store of their [scanList] metadata *)

(** What the program reads and writes of [scan['scanList']['scan'][0]]:
    the limits of the scan window, the start time and the filter string
    (absent when the dictionary has no such key). *)
Record scan_info : Type := ScanInfo {
  scan_window_lower_limit : Q;
  scan_window_upper_limit : Q;
  scan_start_time : Q;
  filter_string : option string
}.

Definition loc : Type := nat.

Abbreviation store := (gmap loc scan_info).

(** A scan dictionary: its two arrays and the reference to its [scanList]. *)
Record spectrum : Type := Spectrum {
  mz_array : list Q;
  intensity_array : list Q;
  scanList : loc
}.

Definition scan_of (h : store) (l : loc) : result scan_info :=
  match h !! l with
  | Some info => Ok info
  | None => Raise KeyError
  end.

Definition set_filter_string (s : string) (info : scan_info) : scan_info :=
  ScanInfo (scan_window_lower_limit info) (scan_window_upper_limit info)
           (scan_start_time info) (Some s).

(** The value of a scan as the caller sees it: the arrays and the metadata
    the reference leads to. *)
Definition scan_value (h : store) (s : spectrum) : list Q * list Q * option scan_info :=
  (mz_array s, intensity_array s, h !! scanList s).

(** ** Peak detection: [peak_detection] *)

Module Scipy.

(** [_local_maxima_1d]: the midpoints of the plateaus that are strictly
    higher than both neighbours; the first and the last sample are never
    maxima. *)
Fixpoint plateau_end (x : list Q) (v : Q) (i_max i_ahead fuel : nat) : nat :=
  match fuel with
  | O => i_ahead
  | S fuel' =>
      if ((i_ahead <? i_max)%nat && Qeq_bool (nth i_ahead x 0%Q) v)%bool
      then plateau_end x v i_max (S i_ahead) fuel'
      else i_ahead
  end.

Fixpoint local_maxima_loop (x : list Q) (i_max i fuel : nat) : list nat :=
  match fuel with
  | O => []
  | S fuel' =>
      if (i <? i_max)%nat then
        if Np.lt (nth (i - 1) x 0%Q) (nth i x 0%Q) then
          let i_ahead := plateau_end x (nth i x 0%Q) i_max (S i) (length x) in
          if Np.lt (nth i_ahead x 0%Q) (nth i x 0%Q)
          then ((i + (i_ahead - 1)) / 2)%nat :: local_maxima_loop x i_max (S i_ahead) fuel'
          else local_maxima_loop x i_max (S i) fuel'
        else local_maxima_loop x i_max (S i) fuel'
      else []
  end.

Definition local_maxima (x : list Q) : list nat :=
  local_maxima_loop x (length x - 1) 1 (length x).

End Scipy.

(** The entries of the [properties] dictionary that the program reads. *)
Record properties : Type := Properties {
  left_ips : list Q;
  right_ips : list Q
}.

(** What [peak_detection] returns: the indices alone in centroid mode, the
    indices and the properties otherwise. *)
Inductive detection : Type :=
  | Peaks (peaks : list nat)
  | PeaksWithProperties (peaks : list nat) (props : properties).

Definition detected_peaks (d : detection) : list nat :=
  match d with
  | Peaks peaks => peaks
  | PeaksWithProperties peaks _ => peaks
  end.

Section PeakDetection.

(** The selections made inside [scipy.signal.find_peaks] after the local
    maxima are found.  Each one computes a mask over the current peaks
    from the signal, the peaks and its parameter, and keeps the peaks
    where the mask holds; [peak_properties] gives the interpolated
    positions of the kept peaks. *)
Variable keep_distance : list Q -> list nat -> Q -> nat -> bool.
Variable keep_prominence : list Q -> list nat -> Q -> nat -> bool.
Variable keep_width : list Q -> list nat -> Q -> nat -> bool.
Variable peak_properties : list Q -> list nat -> properties.

Definition select (keep : list Q -> list nat -> Q -> nat -> bool)
    (x : list Q) (param : Q) (peaks : list nat) : list nat :=
  filter (fun p => keep x peaks param p = true) peaks.

Definition keep_height (x : list Q) (peaks : list nat) (height : Q) (p : nat) : bool :=
  Qle_bool height (nth p x 0%Q).

(** [signal.find_peaks(x, height=, prominence=, width=, distance=)]. *)
Definition find_peaks (x : list Q) (height prominence width distance : Q)
    : result (list nat * properties) :=
  if Np.lt distance 1 then Raise ValueError
  else
    let peaks := Scipy.local_maxima x in
    let peaks := select keep_height x height peaks in
    let peaks := select keep_distance x distance peaks in
    let peaks := select keep_prominence x prominence peaks in
    let peaks := select keep_width x width peaks in
    Ok (peaks, peak_properties x peaks).

(** [peak_detection].  In line 15 the quotient [threshold / 100] and its
    product with the maximum are computed in doubles. *)
Definition peak_detection (spectrum : spectrum)
    (threshold distance prominence width : Q) (centroid : bool)
    : result detection :=
  let* intensity_max := Np.max (intensity_array spectrum) in
  let relative_threshold := Ieee.mul intensity_max (Ieee.div threshold 100) in
  if centroid then
    Ok (Peaks (Np.where_gt (intensity_array spectrum) relative_threshold))
  else
    let* found := find_peaks (intensity_array spectrum) relative_threshold
                             prominence width distance in
    Ok (PeaksWithProperties found.1 found.2).

End PeakDetection.

(** ** Centroids: [return_centroid] *)

(** The body of the loop, for the [i]-th peak.  The products, the two
    sums and the quotient are computed in doubles; the quotient is stored
    in the float32 array [centroids] of line 24. *)
Definition centroid_of (spectrum : spectrum) (properties : properties) (i : nat)
    : result fval :=
  let* left := Py.index (left_ips properties) i in
  let left_ip := Py.int_of_float left in
  let* right := Py.index (right_ips properties) i in
  let right_ip := Py.int_of_float right in
  let* mz_range := Np.take_range (mz_array spectrum) left_ip (right_ip + 1) in
  let* intensity_range := Np.take_range (intensity_array spectrum) left_ip (right_ip + 1) in
  Ok (Np.float32 (Np.divide (Np.sum64 (Np.multiply mz_range intensity_range))
                            (Np.sum64 intensity_range))).

Definition return_centroid (spectrum : spectrum) (peaks : list nat)
    (properties : properties) : result (list fval) :=
  mapM (centroid_of spectrum properties) (seq 0 (length peaks)).

(** ** Averaging: [average_spectra] *)

(** A value passed as [filter_string]: the default [None], the collision
    energy the caller passes (an integer), or a string. *)
Inductive pyval : Type :=
  | PyNone
  | PyInt (z : Z)
  | PyStr (s : string).

Module Fmt.

(** [format(v)] with an empty format specification. *)
Definition plain (v : pyval) : string :=
  match v with
  | PyNone => "None"
  | PyInt z => Py.str z
  | PyStr s => s
  end.

(** Rounding of a non-negative rational to the nearest integer, ties to
    the even one. *)
Definition round_half_even (q : Q) : Z :=
  let f := Qfloor q in
  let d := (q - inject_Z f)%Q in
  if Np.lt d (1 # 2) then f
  else if Np.lt (1 # 2) d then (f + 1)%Z
  else if Z.even f then f else (f + 1)%Z.

Definition two_digits (z : Z) : string :=
  if (z <? 10)%Z then "0" ++ Py.str z else Py.str z.

(** [format(q, '.2f')]. *)
Definition fixed2 (q : Q) : string :=
  let r := round_half_even (Qabs q * 100) in
  (if Np.lt q 0 then "-" else "") ++
  Py.str (r / 100) ++ "." ++ two_digits (r mod 100).

(** ["AV: {:.2f}-{:.2f}; {}".format(t0, t1, v)]. *)
Definition av_label (t0 t1 : Q) (v : pyval) : string :=
  "AV: " ++ fixed2 t0 ++ "-" ++ fixed2 t1 ++ "; " ++ plain v.

End Fmt.

(** Lines 36-41: the grid [reference_mz]. *)
Definition reference_grid (spectra : list spectrum) (bin_width : option Q)
    (h : store) : result (list Q) :=
  let* first := Py.first spectra in
  let reference_scan := Np.unique (mz_array first) in
  let* bin_width :=
    match bin_width with
    | None => Np.min (Np.diff reference_scan)
    | Some w => Ok w
    end in
  let* info := scan_of h (scanList first) in
  let scan_min := scan_window_lower_limit info in
  let scan_max := scan_window_upper_limit info in
  Np.arange scan_min scan_max bin_width.

(** Lines 44-47: the loop that accumulates the interpolated intensities. *)
Fixpoint merge_loop (reference_mz : list Q) (merge_intensity : list Q)
    (spectra : list spectrum) : result (list Q) :=
  match spectra with
  | [] => Ok merge_intensity
  | scan :: spectra' =>
      let tmp_mz := mz_array scan in
      let tmp_intensity := intensity_array scan in
      let* contribution := Np.interp reference_mz tmp_mz tmp_intensity 0 0 in
      merge_loop reference_mz (Np.add merge_intensity contribution) spectra'
  end.

(** Lines 36-49: the grid and the averaged intensities. *)
Definition merged (spectra : list spectrum) (bin_width : option Q) (h : store)
    : result (list Q * list Q) :=
  let* reference_mz := reference_grid spectra bin_width h in
  let* merge_intensity :=
    merge_loop reference_mz (Np.zeros (length reference_mz)) spectra in
  let n := inject_Z (Z.of_nat (length spectra)) in
  Ok (reference_mz, map (fun y => (y / n)%Q) merge_intensity).

(** The right-hand side of line 54. *)
Definition new_filter_string (spectra : list spectrum) (filter_string : pyval)
    (h : store) : result string :=
  let* first := Py.first spectra in
  let* info0 := scan_of h (scanList first) in
  let* last := Py.last spectra in
  let* info1 := scan_of h (scanList last) in
  Ok (Fmt.av_label (scan_start_time info0) (scan_start_time info1) filter_string).

(** [average_spectra]: the result (or the exception) and the store after
    the call.  [spectra[0].copy()] copies the outer dictionary only: the
    copy refers to the [scanList] of [spectra[0]], and line 54 writes the
    new filter string there. *)
Definition average_spectra (spectra : list spectrum) (bin_width : option Q)
    (filter_string : pyval) (h : store) : result spectrum * store :=
  match merged spectra bin_width h with
  | Raise e => (Raise e, h)
  | Ok (reference_mz, merge_intensity) =>
      match Py.first spectra with
      | Raise e => (Raise e, h)
      | Ok first =>
          let avg_spec := Spectrum reference_mz merge_intensity (scanList first) in
          match new_filter_string spectra filter_string h with
          | Raise e => (Raise e, h)
          | Ok label =>
              (Ok avg_spec, alter (set_filter_string label) (scanList avg_spec) h)
          end
      end
  end.

(** ** Interpolation between energies: [interpolate_spectra] *)

(** The dictionary [interpolated_spectra]: its keys in insertion order. *)
Definition energy_dict : Type := list (Q * list Q).

Fixpoint dict_set (k : Q) (v : list Q) (d : energy_dict) : energy_dict :=
  match d with
  | [] => [(k, v)]
  | (k', v') :: d' =>
      if Qeq_bool k' k then (k', v) :: d' else (k', v') :: dict_set k v d'
  end.

Fixpoint dict_append (k : Q) (y : Q) (d : energy_dict) : result energy_dict :=
  match d with
  | [] => Raise KeyError
  | (k', v') :: d' =>
      if Qeq_bool k' k then Ok ((k', (v' ++ [y])%list) :: d')
      else
        let* d'' := dict_append k y d' in
        Ok ((k', v') :: d'')
  end.

(** Lines 66-70: one target energy at one m/z index. *)
Definition interpolate_target (energies intensities : list Q)
    (interpolated_spectra : energy_dict) (target_energy : Q) : result energy_dict :=
  let* lowest := Py.first energies in
  if Np.lt target_energy lowest then Raise (TargetOutsideRange target_energy)
  else
    let* highest := Py.last energies in
    if Np.lt highest target_energy then Raise (TargetOutsideRange target_energy)
    else
      let* interpolated_intensity := Np.interp_scalar target_energy energies intensities in
      dict_append target_energy interpolated_intensity interpolated_spectra.

Fixpoint foldM {A B : Type} (f : A -> B -> result A) (a : A) (l : list B) : result A :=
  match l with
  | [] => Ok a
  | x :: l' =>
      let* a' := f a x in
      foldM f a' l'
  end.

(** Lines 63-70: one m/z index. *)
Definition interpolate_index (intensity_arrays : list (list Q))
    (target_energies energies : list Q)
    (interpolated_spectra : energy_dict) (i : nat) : result energy_dict :=
  let* intensities :=
    mapM (fun j : nat =>
            let* a := Py.index intensity_arrays j in
            Py.index a i)
         (seq 0 (length energies)) in
  foldM (interpolate_target energies intensities) interpolated_spectra target_energies.

Definition interpolate_spectra (spectra : list spectrum)
    (target_energies energies : list Q) : result energy_dict :=
  let intensity_arrays := map intensity_array spectra in
  let interpolated_spectra :=
    foldl (fun d target_energy => dict_set target_energy [] d) [] target_energies in
  let* first := Py.first intensity_arrays in
  foldM (interpolate_index intensity_arrays target_energies energies)
        interpolated_spectra (seq 0 (length first)).

(** The default value of [energies]. *)
Definition default_energies : list Q := [0; 5; 10; 15; 20]%Q.

(** ** The quantities the statements below are about *)






(** The intensity of a spectrum linearly interpolated at the m/z [x], taken
    as 0 when [x] lies outside the m/z range of the spectrum. *)
Definition interpolated_intensity (s : spectrum) (x : Q) : Q :=
  match zip (mz_array s) (intensity_array s) with
  | [] => 0%Q
  | (x0, y0) :: rest => Np.interp_at 0 0 x0 y0 rest x
  end.






(** ** Sample data *)

(** One MS2 scan of three points with its metadata at location 0 of the
    store: the float64 arrays [100.0, 101.0, 102.0] and [4.0, 8.0, 6.0],
    the scan window from 100.0 to 103.0 and the start time 0.5. *)
Definition sample_store : store :=
  {[ 0%nat := ScanInfo 100 103 (1 # 2) (Some "ITMS + c ESI Full ms2") ]}.

Definition sample_scan : spectrum :=
  Spectrum [100; 101; 102]%Q [4; 8; 6]%Q 0.

(** ** Loading: the index of the scans by collision energy *)

(** What the loading loop reads of a scan: its index, its MS level and the
    path [precursorList] / [precursor] / [0] / [activation] /
    [collision energy], every step of which may be missing. *)
Record activation_info : Type := Activation {
  collision_energy : option Q
}.

Record precursor_info : Type := Precursor {
  activation : option activation_info
}.

Record precursor_list : Type := PrecursorList {
  precursor : option (list precursor_info)
}.

Record ms_scan : Type := MsScan {
  scan_index : nat;
  ms_level : Z;
  precursorList : option precursor_list
}.

(** The collision energy the nested tests of the loop reach, if any. *)
Definition scan_energy (scan : ms_scan) : option Q :=
  match precursorList scan with
  | Some pl =>
      match precursor pl with
      | Some (p :: _) =>
          match activation p with
          | Some a => collision_energy a
          | None => None
          end
      | _ => None
      end
  | None => None
  end.

(** The dictionary [scan_energy_list], its keys in insertion order. *)
Definition index_dict : Type := list (Q * list nat).

(** [d[k]] where the key is present ([k in d] otherwise fails). *)
Fixpoint dict_get {V : Type} (k : Q) (d : list (Q * V)) : option V :=
  match d with
  | [] => None
  | (k', v) :: d' => if Qeq_bool k' k then Some v else dict_get k d'
  end.

(** The two statements
    [if energy not in d: d[energy] = []] and [d[energy].append(idx)]. *)
Fixpoint index_append (energy : Q) (idx : nat) (d : index_dict) : index_dict :=
  match d with
  | [] => [(energy, [idx])]
  | (k, v) :: d' =>
      if Qeq_bool k energy then (k, (v ++ [idx])%list) :: d'
      else (k, v) :: index_append energy idx d'
  end.

(** The body of the loop over the reader. *)
Definition index_scan (scan_energy_list : index_dict) (scan : ms_scan) : index_dict :=
  let idx := scan_index scan in
  if (ms_level scan =? 1)%Z then scan_energy_list
  else
    match scan_energy scan with
    | Some energy => index_append energy idx scan_energy_list
    | None => scan_energy_list
    end.

(** [load_data], on the scans the reader yields. *)
Definition load_data (reader : list ms_scan) : list ms_scan * index_dict :=
  (reader, foldl index_scan [] reader).

(** ** The main script: which scans are averaged *)

Definition has_key {V : Type} (k : Q) (d : list (Q * V)) : bool :=
  match dict_get k d with
  | Some _ => true
  | None => false
  end.

(** [[e for e in _available_energies if e in scan_filter_list]]. *)
Definition available_energies (scan_filter_list : index_dict) : list Q :=
  List.filter (fun e => has_key e scan_filter_list) default_energies.

(** [(bucket[0], bucket[-1])]. *)
Definition scan_range (bucket : list nat) : result (nat * nat) :=
  let* first := Py.first bucket in
  let* last := Py.last bucket in
  Ok (first, last).

(** The indices of [range(scan_range[0], scan_range[1] + 1)]. *)
Definition range_of (scan_range : nat * nat) : list nat :=
  seq scan_range.1 (S scan_range.2 - scan_range.1).

(** The indices read from the reader when [scan_filter] is a key of the
    index; [None] when it is not (the interpolation branch). *)
Definition scans_to_average (scan_filter_list : index_dict) (scan_filter : Q)
    : option (result (list nat)) :=
  match dict_get scan_filter scan_filter_list with
  | Some bucket =>
      Some (let* r := scan_range bucket in Ok (range_of r))
  | None => None
  end.

(** A scan is listed under the energy [e]: it is not an MS1 scan and the
    energy it carries equals [e]. *)
Definition listed_under (e : Q) (scan : ms_scan) : bool :=
  (negb (ms_level scan =? 1)%Z &&
   match scan_energy scan with
   | Some energy => Qeq_bool energy e
   | None => false
   end)%bool.

(** ** Quantities of the interpolation between energies *)

(** The intensities of the first [n] spectra at the m/z index [i]. *)
Definition column (intensity_arrays : list (list Q)) (n i : nat) : list Q :=
  map (fun j : nat => nth i (nth j intensity_arrays []) 0%Q) (seq 0 n).

(** The value of [np.interp(t, energies, intensities)]. *)
Definition interpolated_at_energy (energies intensities : list Q) (t : Q) : Q :=
  match zip energies intensities with
  | [] => 0%Q
  | (x0, y0) :: rest =>
      Np.interp_at y0 (List.last (map snd rest) y0) x0 y0 rest t
  end.

(** No two of the target energies are equal. *)
Fixpoint distinct_targets (targets : list Q) : Prop :=
  match targets with
  | [] => True
  | t :: targets' =>
      Forall (fun t' => ~ (t' == t)%Q) targets' /\ distinct_targets targets'
  end.

(** The target energy lies between the first and the last known energy. *)
Definition inside_energies (energies : list Q) (t : Q) : Prop :=
  exists lowest highest,
    Py.first energies = Ok lowest /\ Py.last energies = Ok highest /\
    (lowest <= t)%Q /\ (t <= highest)%Q.

(** What [interpolate_spectra] returns for one target. *)
Definition interpolated_array (intensity_arrays : list (list Q))
    (energies : list Q) (bins : nat) (t : Q) : list Q :=
  map (fun i : nat =>
         interpolated_at_energy energies (column intensity_arrays (length energies) i) t)
      (seq 0 bins).

(** No key of the dictionary equals [t]. *)
Definition no_key (t : Q) (d : energy_dict) : Prop :=
  Forall (fun kv => Qeq_bool kv.1 t = false) d.

(** ** The predefined data: the sidebar options and the table of files *)

(** A value chosen in the sidebar: a string, or Python's [None]. *)
Abbreviation selection := (option string).

(** A value of the [peptide_options] table: a list of options, or a
    dictionary from the charge state to a list of options. *)
Inductive options : Type :=
  | OList (l : list string)
  | ODict (d : list (string * list string)).

(** What a look-up returns or raises: [KeyError] from a dictionary that
    has not got the key, [TypeError] from a list indexed by a string. *)
Inductive outcome (A : Type) : Type :=
  | Returns (a : A)
  | RaisesKeyError
  | RaisesTypeError.

Arguments Returns {A} _.
Arguments RaisesKeyError {A}.
Arguments RaisesTypeError {A}.

Definition and_then {A B : Type} (m : outcome A) (k : A -> outcome B) : outcome B :=
  match m with
  | Returns a => k a
  | RaisesKeyError => RaisesKeyError
  | RaisesTypeError => RaisesTypeError
  end.

Fixpoint lookup_key {V : Type} (k : string) (d : list (string * V)) : option V :=
  match d with
  | [] => None
  | (k', v) :: d' => if String.eqb k' k then Some v else lookup_key k d'
  end.

(** [d[k]] for a dictionary with string keys. *)
Definition getitem {V : Type} (d : list (string * V)) (k : selection) : outcome V :=
  match k with
  | Some s =>
      match lookup_key s d with
      | Some v => Returns v
      | None => RaisesKeyError
      end
  | None => RaisesKeyError
  end.

(** [k in d] for a dictionary with string keys. *)
Definition in_dict {V : Type} (k : selection) (d : list (string * V)) : bool :=
  match k with
  | Some s =>
      match lookup_key s d with
      | Some _ => true
      | None => false
      end
  | None => false
  end.

(** [k in v] and [v[k]] for a value of the table. *)
Definition contains (k : selection) (v : options) : bool :=
  match v with
  | OList l =>
      match k with
      | Some s => existsb (String.eqb s) l
      | None => false
      end
  | ODict d => in_dict k d
  end.

Definition subscript (v : options) (k : selection) : outcome (list string) :=
  match v with
  | ODict d => getitem d k
  | OList _ => RaisesTypeError
  end.

(** The options a select box shows for a value of the table: the elements
    of a list, the keys of a dictionary. *)
Definition options_list (v : options) : list string :=
  match v with
  | OList l => l
  | ODict d => map fst d
  end.

(** The values [st.sidebar.selectbox] can return: one of the options, and
    [None] where there is no option (streamlit). *)
Definition selectbox (opts : list string) : list selection :=
  match opts with
  | [] => [None]
  | _ => map Some opts
  end.

(** Lines 229-264. *)
Definition peptide_options : list (string * list (string * options)) :=
  [
   ("MRFA",
     [
      ("charge_states", OList ["1+"; "2+"]);
      ("resolutions", ODict [("1+", ["Enhanced"; "Turbo"; "Zoom"]); ("2+", ["Enhanced"; "Normal"; "Turbo"; "Zoom"])]);
      ("energy_ramps", ODict [("1+", ["Iso 1"]); ("2+", ["Iso 1"; "Iso 2"; "Iso 3"])])
     ]);
   ("GRGDS",
     [
      ("charge_states", OList ["1+"; "2+"]);
      ("resolutions", OList ["Normal"; "Turbo"; "Zoom"; "Enhanced"]);
      ("energy_ramps", ODict [("1+", ["Iso 1"; "Iso 2"]); ("2+", ["Iso 1"])])
     ]);
   ("SDGRG",
     [
      ("charge_states", OList ["1+"; "2+"]);
      ("resolutions", OList ["Enhanced"; "Normal"; "Turbo"; "Zoom"]);
      ("energy_ramps", OList ["Iso 1"])
     ]);
   ("Bradykinin",
     [
      ("charge_states", OList ["2+"; "3+"]);
      ("resolutions", OList ["Enhanced"; "Normal"; "Turbo"; "Zoom"]);
      ("energy_ramps", OList ["Iso 1"])
     ]);
   ("Substance_P",
     [
      ("charge_states", OList ["2+"; "3+"]);
      ("resolutions", OList ["Enhanced"; "Normal"; "Zoom"; "Turbo"]);
      ("energy_ramps", OList ["Iso 1"])
     ])
  ].

(** Lines 270-271. *)
Definition get_options (selected_peptide : selection) (option_type : string) : outcome options :=
  and_then (getitem peptide_options selected_peptide) (fun entry =>
  getitem entry (Some option_type)).

(** Lines 275-282. *)
Definition get_resolutions (selected_peptide selected_charge_state : selection) : outcome options :=
  if bool_decide (selected_peptide = Some "MRFA") then
    and_then (get_options selected_peptide "resolutions") (fun resolutions =>
    if contains selected_charge_state resolutions then
      and_then (get_options selected_peptide "resolutions") (fun resolutions' =>
      and_then (subscript resolutions' selected_charge_state) (fun l =>
      Returns (OList l)))
    else Returns (OList []))
  else get_options selected_peptide "resolutions".

(** Lines 286-290; the [and] of the test looks the energy ramps up only
    where the peptide is in the table. *)
Definition get_energy_ramp_options (selected_peptide selected_charge_state : selection) : outcome (list string) :=
  if in_dict selected_peptide peptide_options then
    and_then (get_options selected_peptide "energy_ramps") (fun energy_ramps =>
    if contains selected_charge_state energy_ramps then
      and_then (get_options selected_peptide "energy_ramps") (fun energy_ramps' =>
      subscript energy_ramps' selected_charge_state)
    else Returns ["Iso 1"])
  else Returns ["Iso 1"].

(** The selections the sidebar can hand to [load_predefined_data]
    (lines 268, 273, 284 and 293-297): each select box returns one of the
    options computed from the selections made before it. *)
Definition offered (selected_peptide selected_charge_state selected_resolution
    selected_energy_ramp : selection) : Prop :=
  selected_peptide ∈ selectbox (map fst peptide_options) /\
  (exists charge_states,
     get_options selected_peptide "charge_states" = Returns charge_states /\
     selected_charge_state ∈ selectbox (options_list charge_states)) /\
  (exists resolutions,
     get_resolutions selected_peptide selected_charge_state = Returns resolutions /\
     selected_resolution ∈ selectbox (options_list resolutions)) /\
  (exists selected_energy_ramp_options,
     get_energy_ramp_options selected_peptide selected_charge_state
       = Returns selected_energy_ramp_options /\
     selected_energy_ramp ∈
       match selected_energy_ramp_options with
       | [] => [None]
       | _ => selectbox selected_energy_ramp_options
       end).

(** The keys of [file_map]: peptide, charge state, resolution, energy ramp
    and isolation. *)
Definition key : Type := string * string * string * string * string.

(** Lines 109-175. *)
Definition file_map : list (key * string) :=
  [
   (("MRFA", "1+", "Enhanced", "Iso 1", "Centre"),
    "https://raw.githubusercontent.com/KSlater14/Interactive-Tandem-Mass-Spectrometry-App-/main/Data/MRFA/05Mar2024_MJ_MRFA_1%2B_collision_energy_ramp_enhanced_01.mzML");
   (("MRFA", "1+", "Turbo", "Iso 1", "Centre"),
    "https://raw.githubusercontent.com/KSlater14/Interactive-Tandem-Mass-Spectrometry-App-/main/Data/MRFA/05Mar2024_MJ_MRFA_1%2B_collision_energy_ramp_turbo_01.mzML");
   (("MRFA", "1+", "Zoom", "Iso 1", "Centre"),
    "https://raw.githubusercontent.com/KSlater14/Interactive-Tandem-Mass-Spectrometry-App-/main/Data/MRFA/05Mar2024_MJ_MRFA_1%2B_collision_energy_ramp_zoom_01.mzML");
   (("MRFA", "2+", "Zoom", "Iso 1", "Centre"),
    "https://raw.githubusercontent.com/KSlater14/Interactive-Tandem-Mass-Spectrometry-App-/main/Data/MRFA/05Mar2024_MJ_MRFA_2%2B_collision_energy_ramp_zoom_01.mzML");
   (("MRFA", "2+", "Zoom", "Iso 2", "Centre"),
    "https://raw.githubusercontent.com/KSlater14/Interactive-Tandem-Mass-Spectrometry-App-/main/Data/MRFA/12Mar2024_MJ_MRFA_2%2B_collision_energy_ramp_zoom_iso_2.mzML");
   (("MRFA", "2+", "Zoom", "Iso 3", "Centre"),
    "https://raw.githubusercontent.com/KSlater14/Interactive-Tandem-Mass-Spectrometry-App-/main/Data/MRFA/12Mar2024_MJ_MRFA_2%2B_collision_energy_ramp_zoom_iso_3.mzML");
   (("MRFA", "2+", "Turbo", "Iso 1", "Centre"),
    "https://raw.githubusercontent.com/KSlater14/Interactive-Tandem-Mass-Spectrometry-App-/main/Data/MRFA/05Mar2024_MJ_MRFA_2%2B_collision_energy_ramp_turbo_01.mzML");
   (("MRFA", "2+", "Turbo", "Iso 2", "Centre"),
    "https://raw.githubusercontent.com/KSlater14/Interactive-Tandem-Mass-Spectrometry-App-/main/Data/MRFA/12Mar2024_MJ_MRFA_2%2B_collision_energy_ramp_turbo_iso_2.mzML");
   (("MRFA", "2+", "Turbo", "Iso 3", "Centre"),
    "https://raw.githubusercontent.com/KSlater14/Interactive-Tandem-Mass-Spectrometry-App-/main/Data/MRFA/12Mar2024_MJ_MRFA_2%2B_collision_energy_ramp_turbo_iso_3.mzML");
   (("MRFA", "2+", "Normal", "Iso 1", "Centre"),
    "https://raw.githubusercontent.com/KSlater14/Interactive-Tandem-Mass-Spectrometry-App-/main/Data/MRFA/05Mar2024_MJ_MRFA_2%2B_collision_energy_ramp_normal_01.mzML");
   (("MRFA", "2+", "Normal", "Iso 2", "Centre"),
    "https://raw.githubusercontent.com/KSlater14/Interactive-Tandem-Mass-Spectrometry-App-/main/Data/MRFA/12Mar2024_MJ_MRFA_2%2B_collision_energy_ramp_normal_iso_2.mzML");
   (("MRFA", "2+", "Normal", "Iso 3", "Centre"),
    "https://raw.githubusercontent.com/KSlater14/Interactive-Tandem-Mass-Spectrometry-App-/main/Data/MRFA/12Mar2024_MJ_MRFA_2%2B_collision_energy_ramp_normal_iso_3.mzML");
   (("MRFA", "2+", "Enhanced", "Iso 1", "Centre"),
    "https://raw.githubusercontent.com/KSlater14/Interactive-Tandem-Mass-Spectrometry-App-/main/Data/MRFA/05Mar2024_MJ_MRFA_2%2B_collision_energy_ramp_enhanced_01.mzML");
   (("MRFA", "2+", "Enhanced", "Iso 2", "Centre"),
    "https://raw.githubusercontent.com/KSlater14/Interactive-Tandem-Mass-Spectrometry-App-/main/Data/MRFA/12Mar2024_MJ_MRFA_2%2B_collision_energy_ramp_enhanced_iso_2.mzML");
   (("MRFA", "2+", "Enhanced", "Iso 3", "Centre"),
    "https://raw.githubusercontent.com/KSlater14/Interactive-Tandem-Mass-Spectrometry-App-/main/Data/MRFA/12Mar2024_MJ_MRFA_2%2B_collision_energy_ramp_enhanced_iso_3.mzML");
   (("Bradykinin", "2+", "Enhanced", "Iso 1", "Centre"),
    "https://raw.githubusercontent.com/KSlater14/Interactive-Tandem-Mass-Spectrometry-App-/main/Data/Bradykinin/13Mar2024_MJ_bradykinin_2%2B_collision_energy_ramp_enhanced.mzML");
   (("Bradykinin", "2+", "Enhanced", "Iso 1", "Defined"),
    "https://raw.githubusercontent.com/KSlater14/Interactive-Tandem-Mass-Spectrometry-App-/main/Data/Bradykinin/19Mar2024_MJ_bradykinin_2%2B_collision_energy_ramp_enhanced_defined.mzML");
   (("Bradykinin", "2+", "Turbo", "Iso 1", "Centre"),
    "https://raw.githubusercontent.com/KSlater14/Interactive-Tandem-Mass-Spectrometry-App-/main/Data/Bradykinin/13Mar2024_MJ_bradykinin_2%2B_collision_energy_ramp_turbo.mzML");
   (("Bradykinin", "2+", "Turbo", "Iso 1", "Defined"),
    "https://raw.githubusercontent.com/KSlater14/Interactive-Tandem-Mass-Spectrometry-App-/main/Data/Bradykinin/19Mar2024_MJ_bradykinin_2%2B_collision_energy_ramp_turbo_defined.mzML");
   (("Bradykinin", "2+", "Zoom", "Iso 1", "Centre"),
    "https://raw.githubusercontent.com/KSlater14/Interactive-Tandem-Mass-Spectrometry-App-/main/Data/Bradykinin/13Mar2024_MJ_bradykinin_2%2B_collision_energy_ramp_zoom.mzML");
   (("Bradykinin", "2+", "Zoom", "Iso 1", "Defined"),
    "https://raw.githubusercontent.com/KSlater14/Interactive-Tandem-Mass-Spectrometry-App-/main/Data/Bradykinin/19Mar2024_MJ_bradykinin_2%2B_collision_energy_ramp_zoom_defined.mzML");
   (("Bradykinin", "2+", "Normal", "Iso 1", "Centre"),
    "https://raw.githubusercontent.com/KSlater14/Interactive-Tandem-Mass-Spectrometry-App-/main/Data/Bradykinin/13Mar2024_MJ_bradykinin_2%2B_collision_energy_ramp_normal_01.mzML");
   (("Bradykinin", "2+", "Normal", "Iso 1", "Defined"),
    "https://raw.githubusercontent.com/KSlater14/Interactive-Tandem-Mass-Spectrometry-App-/main/Data/Bradykinin/19Mar2024_MJ_bradykinin_2%2B_collision_energy_ramp_normal_defined.mzML");
   (("Bradykinin", "3+", "Enhanced", "Iso 1", "Centre"),
    "https://raw.githubusercontent.com/KSlater14/Interactive-Tandem-Mass-Spectrometry-App-/main/Data/Bradykinin/13Mar2024_MJ_bradykinin_3%2B_collision_energy_ramp_enhanced.mzML");
   (("Bradykinin", "3+", "Normal", "Iso 1", "Centre"),
    "https://raw.githubusercontent.com/KSlater14/Interactive-Tandem-Mass-Spectrometry-App-/main/Data/Bradykinin/13Mar2024_MJ_bradykinin_3%2B_collision_energy_ramp_normal.mzML");
   (("Bradykinin", "3+", "Normal", "Iso 1", "Defined"),
    "https://raw.githubusercontent.com/KSlater14/Interactive-Tandem-Mass-Spectrometry-App-/main/Data/Bradykinin/19Mar2024_MJ_bradykinin_3%2B_collision_energy_ramp_normal_defined.mzML");
   (("Bradykinin", "3+", "Turbo", "Iso 1", "Centre"),
    "https://raw.githubusercontent.com/KSlater14/Interactive-Tandem-Mass-Spectrometry-App-/main/Data/Bradykinin/13Mar2024_MJ_bradykinin_3%2B_collision_energy_ramp_turbo.mzML");
   (("Bradykinin", "3+", "Turbo", "Iso 1", "Defined"),
    "https://raw.githubusercontent.com/KSlater14/Interactive-Tandem-Mass-Spectrometry-App-/main/Data/Bradykinin/19Mar2024_MJ_bradykinin_3%2B_collision_energy_ramp_turbo_defined.mzML");
   (("Bradykinin", "3+", "Zoom", "Iso 1", "Centre"),
    "https://raw.githubusercontent.com/KSlater14/Interactive-Tandem-Mass-Spectrometry-App-/main/Data/Bradykinin/13Mar2024_MJ_bradykinin_3%2B_collision_energy_ramp_zoom.mzML");
   (("Bradykinin", "3+", "Zoom", "Iso 1", "Defined"),
    "https://raw.githubusercontent.com/KSlater14/Interactive-Tandem-Mass-Spectrometry-App-/main/Data/Bradykinin/19Mar2024_MJ_bradykinin_3%2B_collision_energy_ramp_zoom_defined.mzML");
   (("Bradykinin", "3+", "Enhanced", "Iso 1", "Defined"),
    "https://raw.githubusercontent.com/KSlater14/Interactive-Tandem-Mass-Spectrometry-App-/main/Data/Bradykinin/19Mar2024_MJ_bradykinin_3%2B_collision_energy_ramp_enhanced_defined.mzML");
   (("Substance_P", "2+", "Enhanced", "Iso 1", "Centre"),
    "https://raw.githubusercontent.com/KSlater14/Interactive-Tandem-Mass-Spectrometry-App-/main/Data/Substance_P/20Mar2024_MJ_subp_2%2B_collision_energy_ramp_enhanced.mzML");
   (("Substance_P", "2+", "Normal", "Iso 1", "Centre"),
    "https://raw.githubusercontent.com/KSlater14/Interactive-Tandem-Mass-Spectrometry-App-/main/Data/Substance_P/20Mar2024_MJ_subp_2%2B_collision_energy_ramp_normal.mzML");
   (("Substance_P", "2+", "Turbo", "Iso 1", "Centre"),
    "https://raw.githubusercontent.com/KSlater14/Interactive-Tandem-Mass-Spectrometry-App-/main/Data/Substance_P/20Mar2024_MJ_subp_2%2B_collision_energy_ramp_turbo.mzML");
   (("Substance_P", "2+", "Zoom", "Iso 1", "Centre"),
    "https://raw.githubusercontent.com/KSlater14/Interactive-Tandem-Mass-Spectrometry-App-/main/Data/Substance_P/20Mar2024_MJ_subp_2%2B_collision_energy_ramp_zoom.mzML");
   (("Substance_P", "3+", "Enhanced", "Iso 1", "Centre"),
    "https://raw.githubusercontent.com/KSlater14/Interactive-Tandem-Mass-Spectrometry-App-/main/Data/Substance_P/20Mar2024_MJ_subp_3%2B_collision_energy_ramp_enhanced.mzML");
   (("Substance_P", "3+", "Normal", "Iso 1", "Centre"),
    "https://raw.githubusercontent.com/KSlater14/Interactive-Tandem-Mass-Spectrometry-App-/main/Data/Substance_P/20Mar2024_MJ_subp_3%2B_collision_energy_ramp_normal.mzML");
   (("Substance_P", "3+", "Turbo", "Iso 1", "Centre"),
    "https://raw.githubusercontent.com/KSlater14/Interactive-Tandem-Mass-Spectrometry-App-/main/Data/Substance_P/20Mar2024_MJ_subp_3%2B_collision_energy_ramp_turbo.mzML");
   (("Substance_P", "3+", "Zoom", "Iso 1", "Centre"),
    "https://raw.githubusercontent.com/KSlater14/Interactive-Tandem-Mass-Spectrometry-App-/main/Data/Substance_P/20Mar2024_MJ_subp_3%2B_collision_energy_ramp_zoom.mzML");
   (("GRGDS", "1+", "Enhanced", "Iso 1", "Centre"),
    "https://raw.githubusercontent.com/KSlater14/Interactive-Tandem-Mass-Spectrometry-App-/main/Data/GRGDS/21Mar2024_MJ_GRGDS_1%2B_collision_energy_ramp_enhanced.mzML");
   (("GRGDS", "1+", "Enhanced", "Iso 2", "Centre"),
    "https://raw.githubusercontent.com/KSlater14/Interactive-Tandem-Mass-Spectrometry-App-/main/Data/GRGDS/21Mar2024_MJ_GRGDS_1%2B_collision_energy_ramp_enhanced_02.mzML");
   (("GRGDS", "1+", "Normal", "Iso 1", "Centre"),
    "https://raw.githubusercontent.com/KSlater14/Interactive-Tandem-Mass-Spectrometry-App-/main/Data/GRGDS/21Mar2024_MJ_GRGDS_1%2B_collision_energy_ramp_normal.mzML");
   (("GRGDS", "1+", "Normal", "Iso 2", "Centre"),
    "https://raw.githubusercontent.com/KSlater14/Interactive-Tandem-Mass-Spectrometry-App-/main/Data/GRGDS/21Mar2024_MJ_GRGDS_1%2B_collision_energy_ramp_normal_02.mzML");
   (("GRGDS", "1+", "Turbo", "Iso 1", "Centre"),
    "https://raw.githubusercontent.com/KSlater14/Interactive-Tandem-Mass-Spectrometry-App-/main/Data/GRGDS/21Mar2024_MJ_GRGDS_1%2B_collision_energy_ramp_turbo.mzML");
   (("GRGDS", "1+", "Turbo", "Iso 2", "Centre"),
    "https://raw.githubusercontent.com/KSlater14/Interactive-Tandem-Mass-Spectrometry-App-/main/Data/GRGDS/21Mar2024_MJ_GRGDS_1%2B_collision_energy_ramp_turbo_02.mzML");
   (("GRGDS", "1+", "Zoom", "Iso 1", "Centre"),
    "https://raw.githubusercontent.com/KSlater14/Interactive-Tandem-Mass-Spectrometry-App-/main/Data/GRGDS/21Mar2024_MJ_GRGDS_1%2B_collision_energy_ramp_zoom.mzML");
   (("GRGDS", "1+", "Zoom", "Iso 2", "Centre"),
    "https://raw.githubusercontent.com/KSlater14/Interactive-Tandem-Mass-Spectrometry-App-/main/Data/GRGDS/21Mar2024_MJ_GRGDS_1%2B_collision_energy_ramp_zoom_02.mzML");
   (("GRGDS", "2+", "Enhanced", "Iso 1", "Centre"),
    "https://raw.githubusercontent.com/KSlater14/Interactive-Tandem-Mass-Spectrometry-App-/main/Data/GRGDS/21Mar2024_MJ_GRGDS_2%2B_collision_energy_ramp_enhanced.mzML");
   (("GRGDS", "2+", "Normal", "Iso 1", "Centre"),
    "https://raw.githubusercontent.com/KSlater14/Interactive-Tandem-Mass-Spectrometry-App-/main/Data/GRGDS/21Mar2024_MJ_GRGDS_2%2B_collision_energy_ramp_normal.mzML");
   (("GRGDS", "2+", "Turbo", "Iso 1", "Centre"),
    "https://raw.githubusercontent.com/KSlater14/Interactive-Tandem-Mass-Spectrometry-App-/main/Data/GRGDS/21Mar2024_MJ_GRGDS_2%2B_collision_energy_ramp_turbo.mzML");
   (("GRGDS", "2+", "Zoom", "Iso 1", "Centre"),
    "https://raw.githubusercontent.com/KSlater14/Interactive-Tandem-Mass-Spectrometry-App-/main/Data/GRGDS/21Mar2024_MJ_GRGDS_2%2B_collision_energy_ramp_zoom.mzML");
   (("SDGRG", "1+", "Enhanced", "Iso 1", "Centre"),
    "https://raw.githubusercontent.com/KSlater14/Interactive-Tandem-Mass-Spectrometry-App-/main/Data/SDGRG/21Mar2024_MJ_SDGRG_1%2B_collision_energy_ramp_enhanced.mzML");
   (("SDGRG", "1+", "Normal", "Iso 1", "Centre"),
    "https://raw.githubusercontent.com/KSlater14/Interactive-Tandem-Mass-Spectrometry-App-/main/Data/SDGRG/21Mar2024_MJ_SDGRG_1%2B_collision_energy_ramp_normal.mzML");
   (("SDGRG", "1+", "Turbo", "Iso 1", "Centre"),
    "https://raw.githubusercontent.com/KSlater14/Interactive-Tandem-Mass-Spectrometry-App-/main/Data/SDGRG/21Mar2024_MJ_SDGRG_1%2B_collision_energy_ramp_turbo.mzML");
   (("SDGRG", "1+", "Zoom", "Iso 1", "Centre"),
    "https://raw.githubusercontent.com/KSlater14/Interactive-Tandem-Mass-Spectrometry-App-/main/Data/SDGRG/21Mar2024_MJ_SDGRG_1%2B_collision_energy_ramp_zoom.mzML");
   (("SDGRG", "2+", "Enhanced", "Iso 1", "Centre"),
    "https://raw.githubusercontent.com/KSlater14/Interactive-Tandem-Mass-Spectrometry-App-/main/Data/SDGRG/21Mar2024_MJ_SDGRG_2%2B_collision_energy_ramp_enhanced.mzML");
   (("SDGRG", "2+", "Normal", "Iso 1", "Centre"),
    "https://raw.githubusercontent.com/KSlater14/Interactive-Tandem-Mass-Spectrometry-App-/main/Data/SDGRG/21Mar2024_MJ_SDGRG_2%2B_collision_energy_ramp_normal.mzML");
   (("SDGRG", "2+", "Turbo", "Iso 1", "Centre"),
    "https://raw.githubusercontent.com/KSlater14/Interactive-Tandem-Mass-Spectrometry-App-/main/Data/SDGRG/21Mar2024_MJ_SDGRG_conc_2%2B_collision_energy_ramp_turbo.mzML");
   (("SDGRG", "2+", "Zoom", "Iso 1", "Centre"),
    "https://raw.githubusercontent.com/KSlater14/Interactive-Tandem-Mass-Spectrometry-App-/main/Data/SDGRG/21Mar2024_MJ_SDGRG_conc_2%2B_collision_energy_ramp_zoom.mzML")
  ].

(** [file_map.get(k)] for a tuple of five selections: [None] where the
    table has not got the tuple, which is the case of every tuple with a
    [None] in it. *)
Definition key_eqb (k : key) (peptide charge_state resolution energy_ramp isolation : selection) : bool :=
  let '(p, c, r, e, i) := k in
  bool_decide (peptide = Some p) && bool_decide (charge_state = Some c) &&
  bool_decide (resolution = Some r) && bool_decide (energy_ramp = Some e) &&
  bool_decide (isolation = Some i).

Fixpoint file_map_get (table : list (key * string))
    (peptide charge_state resolution energy_ramp isolation : selection) : option string :=
  match table with
  | [] => None
  | (k, url) :: table' =>
      if key_eqb k peptide charge_state resolution energy_ramp isolation then Some url
      else file_map_get table' peptide charge_state resolution energy_ramp isolation
  end.

(** [selected_file_url] of [load_predefined_data] (lines 177-180). *)
Definition selected_file_url (peptide charge_state resolution energy_ramp isolation : selection) : option string :=
  if bool_decide (isolation <> None) && bool_decide (peptide = Some "Bradykinin") then
    file_map_get file_map peptide charge_state resolution energy_ramp isolation
  else
    file_map_get file_map peptide charge_state resolution energy_ramp (Some "Centre").

(** The test [if selected_file_url:] of line 183: the file is downloaded
    and read where the look-up gave a string that is not empty. *)
Definition file_is_loaded (selected_file_url : option string) : bool :=
  match selected_file_url with
  | Some url => negb (String.eqb url "")
  | None => false
  end.

(** * Properties *)

(** ** The result monad *)

Lemma bind_ok {A B : Type} (m : result A) (k : A -> result B) (b : B) :
  bind m k = Ok b -> exists a, m = Ok a /\ k a = Ok b.
Proof.
  destruct m as [a|e]; simpl; intros H; [eauto | discriminate].
Qed.

Lemma mapM_ok_length {A B : Type} (f : A -> result B) (l : list A) (ys : list B) :
  mapM f l = Ok ys -> length ys = length l.
Proof.
  revert ys; induction l as [|x l IH]; simpl; intros ys H.
  - by inversion H.
  - apply bind_ok in H as (y & _ & H).
    apply bind_ok in H as (ys' & Hys & H).
    inversion H; subst; simpl. f_equal. by apply IH.
Qed.

Lemma mapM_ok_lookup {A B : Type} (f : A -> result B) (l : list A) (ys : list B)
    (i : nat) (x : A) :
  mapM f l = Ok ys -> l !! i = Some x -> exists y, ys !! i = Some y /\ f x = Ok y.
Proof.
  revert ys i; induction l as [|x' l IH]; simpl; intros ys i H Hi; [done|].
  apply bind_ok in H as (y & Hy & H).
  apply bind_ok in H as (ys' & Hys & H).
  inversion H; subst; clear H.
  destruct i as [|i]; simpl in *.
  - inversion Hi; subst. eauto.
  - eauto.
Qed.

Lemma mapM_all_ok {A B : Type} (f : A -> result B) (g : A -> B) (l : list A) :
  (forall x, x ∈ l -> f x = Ok (g x)) -> mapM f l = Ok (map g l).
Proof.
  induction l as [|x l IH]; simpl; intros H; [done|].
  rewrite H by left. simpl. rewrite IH; [done|].
  intros y Hy. apply H. by right.
Qed.

(** ** Python slices *)

Lemma slice_to_take {A : Type} (p : Z) (l : list A) :
  (0 <= p)%Z -> Py.slice_to p l = take (Z.to_nat p) l.
Proof.
  intros Hp. unfold Py.slice_to, Py.clamp.
  destruct (Z.ltb_spec p 0); [lia|].
  destruct (Z.le_gt_cases p (Z.of_nat (length l))) as [Hle|Hgt].
  - by rewrite Z.min_l.
  - rewrite Z.min_r by lia. rewrite Nat2Z.id.
    rewrite !take_ge; [done | lia | lia].
Qed.

Lemma slice_from_drop {A : Type} (p : Z) (l : list A) :
  (1 <= p)%Z -> Py.slice_from (- p) l = drop (length l - Z.to_nat p) l.
Proof.
  intros Hp. unfold Py.slice_from, Py.clamp.
  destruct (Z.ltb_spec (- p) 0); [|lia].
  f_equal. lia.
Qed.

Lemma slice_to_all {A : Type} (p : Z) (l : list A) :
  (Z.of_nat (length l) <= p)%Z -> Py.slice_to p l = l.
Proof.
  intros Hp. rewrite slice_to_take by lia. apply take_ge. lia.
Qed.

Lemma slice_from_all {A : Type} (p : Z) (l : list A) :
  (Z.of_nat (length l) <= p)%Z -> Py.slice_from (- p) l = l.
Proof.
  intros Hp. unfold Py.slice_from, Py.clamp.
  destruct (Z.ltb_spec (- p) 0).
  - replace (Z.to_nat _) with 0%nat by lia. done.
  - assert (p = 0%Z) as -> by lia. simpl.
    assert (length l = 0%nat) as Hl by lia.
    destruct l; [done | discriminate].
Qed.

(** ** Fragment ions *)

Section FragmentIonFacts.

Context {M : Type}.
Variable parse : string -> result (list string).
Variable fast_mass2 : string -> string -> Z -> result M.

(** One ion: whenever the loop body returns, the fragment is the one
    made of [ion_seq] and [ion_label]. *)
Lemma fragment_of_ok (_sequence : list string) (charge : Z) (ion t : string)
    (p : Z) (f : fragment M) :
  Py.first_char ion = Ok t ->
  Py.int (Py.tail ion) = Ok p ->
  fragment_of fast_mass2 _sequence charge ion = Ok f ->
  f_seq f = ion_seq _sequence t p /\
  f_ion f = ion_label _sequence ion t p /\
  f_type f = t /\
  fast_mass2 (ion_seq _sequence t p) t charge = Ok (f_mz f).
Proof.
  intros Ht Hp. unfold fragment_of. rewrite Ht, Hp. simpl.
  intros H. apply bind_ok in H as (m & Hm & H).
  by inversion H; subst.
Qed.

(** The loop body fails only where the ion string or the library does. *)
Lemma fragment_of_result (_sequence : list string) (charge : Z) (ion t : string)
    (p : Z) :
  Py.first_char ion = Ok t ->
  Py.int (Py.tail ion) = Ok p ->
  fragment_of fast_mass2 _sequence charge ion =
    let* m := fast_mass2 (ion_seq _sequence t p) t charge in
    Ok (Fragment (ion_seq _sequence t p) (ion_label _sequence ion t p) m t).
Proof.
  intros Ht Hp. unfold fragment_of. by rewrite Ht, Hp.
Qed.

Lemma cterm_not_nterm (t : string) : is_cterm t = true -> is_nterm t = false.
Proof.
  unfold is_cterm, is_nterm. intros H.
  apply orb_true_iff in H as [H|H]; [apply orb_true_iff in H as [H|H]|];
    apply String.eqb_eq in H; by subst.
Qed.

(** At position 0 the slice [_sequence[-0:]] of a C-terminal ion is the
    whole sequence. *)
Lemma ion_seq_cterm_zero (residues : list string) (t : string) :
  is_nterm t = false -> ion_seq residues t 0 = Py.join residues.
Proof.
  intros Ht. unfold ion_seq, Py.slice_from, Py.clamp. rewrite Ht. simpl.
  by rewrite Z.min_l by lia.
Qed.

(** [get_fragments] returns as soon as the sequence is tokenized, every
    ion is a type followed by a number, and the library gives a mass for
    the subsequence of every ion. *)
Lemma get_fragments_returns (sequence : string) (residues : list string)
    (fragment_ions : list string) (charge : Z) :
  parse sequence = Ok residues ->
  (forall ion, ion ∈ fragment_ions ->
     exists t p,
       Py.first_char ion = Ok t /\ Py.int (Py.tail ion) = Ok p /\
       is_ok (fast_mass2 (ion_seq residues t p) t charge)) ->
  is_ok (get_fragments parse fast_mass2 sequence fragment_ions charge).
Proof.
  intros Hparse Hions. unfold get_fragments. rewrite Hparse. simpl.
  induction fragment_ions as [|ion ions IH]; simpl; [by eexists|].
  destruct (Hions ion) as (t & p & Ht & Hp & m & Hm); [left|].
  rewrite (fragment_of_result _ _ _ _ _ Ht Hp), Hm. simpl.
  destruct IH as (fs & ->); [intros ion' Hin; apply Hions; by right|].
  simpl. by eexists.
Qed.

End FragmentIonFacts.

(** C1 (as the code has it): for the sequence "MRFA" with charge 1, the ion
    "b2" gives the subsequence "MR" with the label "b2", and the ion "y2"
    gives the subsequence "FA" with the label "y3": a C-terminal label is
    the ion type followed by length - position + 1 = 4 - 2 + 1. *)
Theorem C1_MRFA_fragments {M : Type}
    (parse : string -> result (list string))
    (fast_mass2 : string -> string -> Z -> result M) (m_b m_y : M) :
  parse "MRFA" = Ok ["M"; "R"; "F"; "A"] ->
  fast_mass2 "MR" "b" 1%Z = Ok m_b ->
  fast_mass2 "FA" "y" 1%Z = Ok m_y ->
  get_fragments parse fast_mass2 "MRFA" ["b2"] 1 = Ok [Fragment "MR" "b2" m_b "b"] /\
  get_fragments parse fast_mass2 "MRFA" ["y2"] 1 = Ok [Fragment "FA" "y3" m_y "y"].
Proof.
  intros Hparse Hb Hy. unfold get_fragments. rewrite Hparse. simpl.
  split.
  - rewrite (fragment_of_result fast_mass2 _ _ "b2" "b" 2) by reflexivity.
    change (ion_seq ["M"; "R"; "F"; "A"] "b" 2) with "MR".
    rewrite Hb. reflexivity.
  - rewrite (fragment_of_result fast_mass2 _ _ "y2" "y" 2) by reflexivity.
    change (ion_seq ["M"; "R"; "F"; "A"] "y" 2) with "FA".
    rewrite Hy. reflexivity.
Qed.

Lemma C1_MRFA_fragments_witness :
  get_fragments Plain.parse Plain.fast_mass2 "MRFA" ["b2"] 1
    = Ok [Fragment "MR" "b2" ("MR", "b", 1%Z) "b"] /\
  get_fragments Plain.parse Plain.fast_mass2 "MRFA" ["y2"] 1
    = Ok [Fragment "FA" "y3" ("FA", "y", 1%Z) "y"].
Proof.
  apply (C1_MRFA_fragments Plain.parse Plain.fast_mass2); reflexivity.
Defined.

(** The ion "y2" of "MRFA" is not labelled "y2": the call returns one
    fragment, with subsequence "FA" and label "y3". *)
Lemma C1_y2_label_counterexample :
  exists f,
    get_fragments Plain.parse Plain.fast_mass2 "MRFA" ["y2"] 1 = Ok [f] /\
    f_seq f = "FA" /\ f_ion f = "y3" /\ f_ion f <> "y2".
Proof.
  eexists. split; [reflexivity|]. simpl. repeat split. discriminate.
Qed.

(** C2: for a tokenized sequence, an ion of type a, b or c requested at
    position p (a residue count, so p >= 1) gets the first p residues as
    subsequence and the label type+p; an ion of type x, y or z gets the
    last p residues and the label type+(length - p + 1).  The fragments
    come in the order of the requested ions. *)
Theorem C2_subsequence_and_label {M : Type}
    (parse : string -> result (list string))
    (fast_mass2 : string -> string -> Z -> result M)
    (sequence : string) (residues : list string) (fragment_ions : list string)
    (charge : Z) (fragments : list (fragment M)) :
  parse sequence = Ok residues ->
  get_fragments parse fast_mass2 sequence fragment_ions charge = Ok fragments ->
  length fragments = length fragment_ions /\
  forall (i : nat) (ion t : string) (p : Z),
    fragment_ions !! i = Some ion ->
    Py.first_char ion = Ok t ->
    Py.int (Py.tail ion) = Ok p ->
    (1 <= p)%Z ->
    exists f,
      fragments !! i = Some f /\
      (is_nterm t = true ->
         f_seq f = Py.join (take (Z.to_nat p) residues) /\
         f_ion f = t ++ Py.str p) /\
      (is_cterm t = true ->
         f_seq f = Py.join (drop (length residues - Z.to_nat p) residues) /\
         f_ion f = t ++ Py.str (Z.of_nat (length residues) - p + 1)).
Proof.
  intros Hparse. unfold get_fragments. rewrite Hparse. simpl. intros Hall.
  split; [by eapply mapM_ok_length|].
  intros i ion t p Hi Ht Hp Hpos.
  destruct (mapM_ok_lookup _ _ _ _ _ Hall Hi) as (f & Hf & Hone).
  exists f. split; [done|].
  destruct (fragment_of_ok fast_mass2 _ _ _ _ _ _ Ht Hp Hone) as (Hs & Hl & _).
  rewrite Hs, Hl. unfold ion_seq, ion_label. split.
  - intros ->. split; [|done]. by rewrite slice_to_take by lia.
  - intros Hc. rewrite (cterm_not_nterm _ Hc), Hc.
    split; [|done]. by rewrite slice_from_drop.
Qed.

Lemma C2_subsequence_and_label_witness :
  exists f,
    [Fragment "GRG" "c3" ("GRG", "c", 2%Z) "c";
     Fragment "DS" "z4" ("DS", "z", 2%Z) "z"] !! 1%nat = Some f /\
    (is_nterm "z" = true ->
       f_seq f = Py.join (take (Z.to_nat 2) ["G"; "R"; "G"; "D"; "S"]) /\
       f_ion f = "z" ++ Py.str 2) /\
    (is_cterm "z" = true ->
       f_seq f = Py.join (drop (5 - Z.to_nat 2) ["G"; "R"; "G"; "D"; "S"]) /\
       f_ion f = "z" ++ Py.str (Z.of_nat 5 - 2 + 1)).
Proof.
  apply (proj2 (C2_subsequence_and_label Plain.parse Plain.fast_mass2
                  "GRGDS" ["G"; "R"; "G"; "D"; "S"] ["c3"; "z2"] 2 _
                  eq_refl eq_refl) 1%nat "z2" "z" 2%Z);
    [reflexivity | reflexivity | reflexivity | lia].
Defined.

(** C8 (as the code has it): the calculator checks neither the position nor
    the charge.  For an ion whose position is at least the number of
    residues the slice is clamped: the subsequence is the whole sequence,
    and for every charge, positive or not, the loop body returns the
    fragment as soon as the library's mass calculation returns a mass for
    that subsequence, ion type and charge, and fails only with the
    library's own exception. *)
Theorem C8_position_clamped_charge_unchecked {M : Type}
    (fast_mass2 : string -> string -> Z -> result M)
    (residues : list string) (charge : Z) (ion t : string) (p : Z) :
  Py.first_char ion = Ok t ->
  Py.int (Py.tail ion) = Ok p ->
  (Z.of_nat (length residues) <= p)%Z ->
  fragment_of fast_mass2 residues charge ion =
    match fast_mass2 (Py.join residues) t charge with
    | Ok m => Ok (Fragment (Py.join residues) (ion_label residues ion t p) m t)
    | Raise e => Raise e
    end.
Proof.
  intros Ht Hp Hlen.
  rewrite (fragment_of_result fast_mass2 _ _ _ _ _ Ht Hp).
  assert (ion_seq residues t p = Py.join residues) as ->; [|done].
  unfold ion_seq. destruct (is_nterm t).
  - by rewrite slice_to_all.
  - by rewrite slice_from_all.
Qed.

Lemma C8_position_clamped_charge_unchecked_witness :
  fragment_of Plain.fast_mass2 ["M"; "R"; "F"; "A"] 0 "b5" =
    Ok (Fragment "MRFA" "b5" ("MRFA", "b", 0%Z) "b").
Proof.
  apply (C8_position_clamped_charge_unchecked Plain.fast_mass2
           ["M"; "R"; "F"; "A"] 0 "b5" "b" 5); [reflexivity | reflexivity | simpl; lia].
Defined.

(** Position 5 and position 7 on the four residues of "MRFA": no error,
    both fragments are returned with the whole sequence as subsequence. *)
Lemma C8_position_beyond_length_counterexample :
  get_fragments Plain.parse Plain.fast_mass2 "MRFA" ["b5"; "y7"] 1 =
    Ok [Fragment "MRFA" "b5" ("MRFA", "b", 1%Z) "b";
        Fragment "MRFA" "y-2" ("MRFA", "y", 1%Z) "y"].
Proof. reflexivity. Qed.

(** ** Rounding to the nearest float *)

(** Powers of two. *)
Lemma pow2_pos (k : Z) : (0 < Ieee.pow2 k)%Q.
Proof. apply Qpower_0_lt. reflexivity. Qed.

Lemma pow2_add (a b : Z) : (Ieee.pow2 (a + b) == Ieee.pow2 a * Ieee.pow2 b)%Q.
Proof. apply Qpower_plus. discriminate. Qed.

Lemma pow2_le (a b : Z) : (a <= b)%Z -> (Ieee.pow2 a <= Ieee.pow2 b)%Q.
Proof. intros H. apply Qpower_le_compat_l; [done | discriminate]. Qed.

Lemma pow2_lt_inv (a b : Z) : (Ieee.pow2 a < Ieee.pow2 b)%Q -> (a < b)%Z.
Proof. intros H. by apply (Qpower_lt_compat_l_inv 2). Qed.

Lemma pow2_Z (k : Z) : (0 <= k)%Z -> (Ieee.pow2 k == inject_Z (2 ^ k))%Q.
Proof. intros H. symmetry. by apply (Zpower_Qpower 2). Qed.

Lemma pow2_succ (k : Z) : (Ieee.pow2 (k + 1) == 2 * Ieee.pow2 k)%Q.
Proof. rewrite pow2_add. change (Ieee.pow2 1) with 2%Q. ring. Qed.

(** [Ieee.log2] is the exponent of the binade of a positive rational, and
    it grows with the rational. *)
Lemma log2_spec (q : Q) :
  (0 < q)%Q ->
  (Ieee.pow2 (Ieee.log2 q) <= q)%Q /\ (q < Ieee.pow2 (Ieee.log2 q + 1))%Q.
Proof.
  intros Hq. destruct q as [n d].
  assert (0 < n)%Z as Hn by (unfold Qlt in Hq; simpl in Hq; lia).
  unfold Ieee.log2. simpl Qnum. simpl Qden.
  set (a := Z.log2 n). set (b := Z.log2 (Z.pos d)).
  destruct (Z.log2_spec n Hn) as [Ha1 Ha2]. fold a in Ha1, Ha2.
  destruct (Z.log2_spec (Z.pos d) eq_refl) as [Hb1 Hb2]. fold b in Hb1, Hb2.
  assert (0 <= a)%Z as Ha0 by apply Z.log2_nonneg.
  assert (0 <= b)%Z as Hb0 by apply Z.log2_nonneg.
  pose proof (pow2_pos a) as HA. pose proof (pow2_pos b) as HB.
  pose proof (pow2_pos (a - b)) as HP.
  assert (Ieee.pow2 a <= inject_Z n)%Q as HA1.
  { rewrite pow2_Z by done. by rewrite <- Zle_Qle. }
  assert (inject_Z n < 2 * Ieee.pow2 a)%Q as HA2.
  { rewrite <- pow2_succ, pow2_Z by lia. rewrite <- Zlt_Qlt. by rewrite <- Z.add_1_r in Ha2. }
  assert (Ieee.pow2 b <= inject_Z (Z.pos d))%Q as HB1.
  { rewrite pow2_Z by done. by rewrite <- Zle_Qle. }
  assert (inject_Z (Z.pos d) < 2 * Ieee.pow2 b)%Q as HB2.
  { rewrite <- pow2_succ, pow2_Z by lia. rewrite <- Zlt_Qlt. by rewrite <- Z.add_1_r in Hb2. }
  assert (Ieee.pow2 (a - b) * Ieee.pow2 b == Ieee.pow2 a)%Q as Hab.
  { rewrite <- pow2_add. by replace (a - b + b)%Z with a by lia. }
  assert ((n # d) * inject_Z (Z.pos d) == inject_Z n)%Q as Hnd.
  { rewrite (Qmake_Qdiv n d). field. discriminate. }
  set (q := (n # d)) in *. set (N := inject_Z n) in *. set (D := inject_Z (Z.pos d)) in *.
  set (A := Ieee.pow2 a) in *. set (B := Ieee.pow2 b) in *.
  destruct (Qle_bool (Ieee.pow2 (a - b)) q) eqn:E.
  - apply Qle_bool_iff in E. split; [done|].
    rewrite pow2_succ. set (P := Ieee.pow2 (a - b)) in *.
    apply Qnot_le_lt. intros Hc. nra.
  - assert (q < Ieee.pow2 (a - b))%Q as Hlt.
    { apply Qnot_le_lt. intros Hc. apply Qle_bool_iff in Hc. congruence. }
    replace (a - b - 1 + 1)%Z with (a - b)%Z by lia. split; [|done].
    assert (2 * Ieee.pow2 (a - b - 1) == Ieee.pow2 (a - b))%Q as Hhalf.
    { rewrite <- pow2_succ. by replace (a - b - 1 + 1)%Z with (a - b)%Z by lia. }
    pose proof (pow2_pos (a - b - 1)) as HP'.
    set (P := Ieee.pow2 (a - b)) in *. set (P' := Ieee.pow2 (a - b - 1)) in *.
    apply Qnot_lt_le. intros Hc. nra.
Qed.

Lemma log2_le (x y : Q) : (0 < x)%Q -> (x <= y)%Q -> (Ieee.log2 x <= Ieee.log2 y)%Z.
Proof.
  intros Hx Hxy.
  destruct (log2_spec x Hx) as [Hx1 _].
  destruct (log2_spec y) as [_ Hy2]; [lra|].
  assert (Ieee.pow2 (Ieee.log2 x) < Ieee.pow2 (Ieee.log2 y + 1))%Q as H by lra.
  apply pow2_lt_inv in H. lia.
Qed.

(** The nearest integer is the floor or the next integer, is within one
    half of the rational, grows with it, and is the integer itself for an
    integer. *)
Lemma nearest_even_floor (q : Q) :
  (Qfloor q <= Ieee.nearest_even q <= Qfloor q + 1)%Z.
Proof.
  unfold Ieee.nearest_even.
  repeat match goal with |- context [if ?b then _ else _] => destruct b end; lia.
Qed.

Lemma nearest_even_error (q : Q) :
  (q - (1 # 2) <= inject_Z (Ieee.nearest_even q))%Q /\
  (inject_Z (Ieee.nearest_even q) <= q + (1 # 2))%Q.
Proof.
  pose proof (Qfloor_le q) as Hlo. pose proof (Qlt_floor q) as Hhi.
  rewrite inject_Z_plus in Hhi. change (inject_Z 1) with 1%Q in Hhi.
  unfold Ieee.nearest_even. set (f := Qfloor q) in *.
  destruct (Qle_bool (q - inject_Z f) (1 # 2)) eqn:E1;
    destruct (Qle_bool (1 # 2) (q - inject_Z f)) eqn:E2;
    destruct (Z.even f);
    rewrite ?inject_Z_plus; change (inject_Z 1) with 1%Q;
    repeat match goal with
    | H : Qle_bool _ _ = true |- _ => apply Qle_bool_iff in H
    | H : Qle_bool ?a ?b = false |- _ =>
        assert (b < a)%Q by (apply Qnot_le_lt; intros Hc; apply Qle_bool_iff in Hc; congruence);
        clear H
    end; split; lra.
Qed.

Lemma nearest_even_le (x y : Q) :
  (x <= y)%Q -> (Ieee.nearest_even x <= Ieee.nearest_even y)%Z.
Proof.
  intros Hxy. pose proof (Qfloor_resp_le x y Hxy) as Hf.
  destruct (Z.eq_dec (Qfloor x) (Qfloor y)) as [Heq|Hne].
  - unfold Ieee.nearest_even. rewrite <- Heq.
    set (f := Qfloor x).
    destruct (Qle_bool (x - inject_Z f) (1 # 2)) eqn:E1;
    destruct (Qle_bool (1 # 2) (x - inject_Z f)) eqn:E2;
    destruct (Qle_bool (y - inject_Z f) (1 # 2)) eqn:E3;
    destruct (Qle_bool (1 # 2) (y - inject_Z f)) eqn:E4;
    destruct (Z.even f); try lia;
    repeat match goal with
    | H : Qle_bool _ _ = true |- _ => apply Qle_bool_iff in H
    | H : Qle_bool ?a ?b = false |- _ =>
        assert (b < a)%Q by (apply Qnot_le_lt; intros Hc; apply Qle_bool_iff in Hc; congruence);
        clear H
    end; exfalso; lra.
  - pose proof (nearest_even_floor x). pose proof (nearest_even_floor y). lia.
Qed.

Lemma nearest_even_Z (z : Z) : Ieee.nearest_even (inject_Z z) = z.
Proof.
  unfold Ieee.nearest_even. rewrite Qfloor_Z.
  assert (inject_Z z - inject_Z z == 0)%Q as H by ring.
  assert (Qle_bool (inject_Z z - inject_Z z) (1 # 2) = true) as ->.
  { apply Qle_bool_iff. rewrite H. discriminate. }
  assert (Qle_bool (1 # 2) (inject_Z z - inject_Z z) = false) as ->; [|done].
  destruct (Qle_bool (1 # 2) (inject_Z z - inject_Z z)) eqn:E; [|done].
  apply Qle_bool_iff in E. rewrite H in E. by exfalso.
Qed.

Lemma nearest_even_lower (a : Z) (x : Q) :
  (inject_Z a <= x)%Q -> (a <= Ieee.nearest_even x)%Z.
Proof. intros H. rewrite <- (nearest_even_Z a). by apply nearest_even_le. Qed.

Lemma nearest_even_upper (b : Z) (x : Q) :
  (x <= inject_Z b)%Q -> (Ieee.nearest_even x <= b)%Z.
Proof. intros H. rewrite <- (nearest_even_Z b). by apply nearest_even_le. Qed.

(** The rounding of a positive rational is within half a unit in the
    last place of it. *)
Lemma round_pos_error (prec emin : Z) (q : Q) :
  let e := Z.max emin (Ieee.log2 q - prec + 1) in
  (q - Ieee.pow2 e / 2 <= Ieee.round_pos prec emin q)%Q /\
  (Ieee.round_pos prec emin q <= q + Ieee.pow2 e / 2)%Q.
Proof.
  intros e. unfold Ieee.round_pos. fold e.
  pose proof (pow2_pos e) as He.
  destruct (nearest_even_error (q / Ieee.pow2 e)) as [Hlo Hhi].
  assert (q / Ieee.pow2 e * Ieee.pow2 e == q)%Q as Hq by (field; lra).
  set (m := inject_Z (Ieee.nearest_even (q / Ieee.pow2 e))) in *.
  set (x := (q / Ieee.pow2 e)%Q) in *. set (p := Ieee.pow2 e) in *.
  split.
  - setoid_replace (q - p / 2)%Q with ((x - (1 # 2)) * p)%Q using relation Qeq
      by (rewrite <- Hq; field).
    apply Qmult_le_compat_r; lra.
  - setoid_replace (q + p / 2)%Q with ((x + (1 # 2)) * p)%Q using relation Qeq
      by (rewrite <- Hq; field).
    apply Qmult_le_compat_r; lra.
Qed.

Lemma round_pos_nonneg (prec emin : Z) (q : Q) :
  (0 < q)%Q -> (0 <= Ieee.round_pos prec emin q)%Q.
Proof.
  intros Hq. unfold Ieee.round_pos.
  set (e := Z.max emin (Ieee.log2 q - prec + 1)).
  pose proof (pow2_pos e) as He.
  assert (0 <= Ieee.nearest_even (q / Ieee.pow2 e))%Z as Hm.
  { apply nearest_even_lower. apply Qle_shift_div_l; [done|].
    change (inject_Z 0) with 0%Q. lra. }
  apply Qmult_le_0_compat; [|lra].
  change 0%Q with (inject_Z 0). by rewrite <- Zle_Qle.
Qed.

(** Rounding is monotone: within a binade because the nearest integer
    is, across binades because the powers of two are floats. *)
Lemma round_pos_le (prec emin : Z) (x y : Q) :
  (1 <= prec)%Z -> (0 < x)%Q -> (x <= y)%Q ->
  (Ieee.round_pos prec emin x <= Ieee.round_pos prec emin y)%Q.
Proof.
  intros Hprec Hx Hxy.
  assert (0 < y)%Q as Hy by lra.
  pose proof (log2_le x y Hx Hxy) as Hlog.
  unfold Ieee.round_pos.
  set (ex := Z.max emin (Ieee.log2 x - prec + 1)).
  set (ey := Z.max emin (Ieee.log2 y - prec + 1)).
  pose proof (pow2_pos ex) as Hex. pose proof (pow2_pos ey) as Hey.
  destruct (Z.eq_dec ex ey) as [Heq|Hne].
  - rewrite <- Heq.
    assert (Ieee.nearest_even (x / Ieee.pow2 ex) <= Ieee.nearest_even (y / Ieee.pow2 ex))%Z as Hm.
    { apply nearest_even_le. apply Qmult_le_compat_r; [done|].
      apply Qlt_le_weak, Qinv_lt_0_compat, Hex. }
    rewrite Zle_Qle in Hm. nra.
  - assert (ex < ey)%Z as Hlt by lia.
    assert (ey = Ieee.log2 y - prec + 1)%Z as Hey' by lia.
    assert (Ieee.log2 x + 1 <= ex + prec)%Z as Hex' by lia.
    destruct (log2_spec x Hx) as [_ Hx2]. destruct (log2_spec y Hy) as [Hy1 _].
    assert (Ieee.nearest_even (x / Ieee.pow2 ex) <= 2 ^ prec)%Z as Hmx.
    { apply nearest_even_upper. rewrite <- pow2_Z by lia.
      apply Qle_shift_div_r; [done|]. rewrite <- pow2_add.
      apply Qlt_le_weak. eapply Qlt_le_trans; [exact Hx2|].
      apply pow2_le. lia. }
    assert (2 ^ (prec - 1) <= Ieee.nearest_even (y / Ieee.pow2 ey))%Z as Hmy.
    { apply nearest_even_lower. rewrite <- pow2_Z by lia.
      apply Qle_shift_div_l; [done|]. rewrite <- pow2_add.
      eapply Qle_trans; [|exact Hy1]. apply pow2_le. lia. }
    rewrite Zle_Qle in Hmx, Hmy.
    rewrite <- pow2_Z in Hmx, Hmy by lia.
    assert (Ieee.pow2 prec * Ieee.pow2 ex <= Ieee.pow2 (prec - 1) * Ieee.pow2 ey)%Q as Hp.
    { rewrite <- !pow2_add. apply pow2_le. lia. }
    pose proof (pow2_pos prec). pose proof (pow2_pos (prec - 1)).
    set (mx := inject_Z (Ieee.nearest_even (x / Ieee.pow2 ex))) in *.
    set (my := inject_Z (Ieee.nearest_even (y / Ieee.pow2 ey))) in *.
    set (Px := Ieee.pow2 ex) in *. set (Py := Ieee.pow2 ey) in *.
    set (P := Ieee.pow2 prec) in *. set (P' := Ieee.pow2 (prec - 1)) in *.
    nra.
Qed.

Lemma round_zero (prec emin : Z) (q : Q) : (q == 0)%Q -> Ieee.round prec emin q = 0%Q.
Proof.
  intros H. unfold Ieee.round.
  assert (Qnum q = 0%Z) as ->; [|done].
  unfold Qeq in H. simpl in H. lia.
Qed.

Lemma round_le (prec emin : Z) (x y : Q) :
  (1 <= prec)%Z -> (x <= y)%Q -> (Ieee.round prec emin x <= Ieee.round prec emin y)%Q.
Proof.
  intros Hprec Hxy. unfold Ieee.round.
  destruct x as [nx dx], y as [ny dy]. simpl Qnum.
  destruct nx as [|px|px], ny as [|py|py];
    try (exfalso; unfold Qle in Hxy; simpl in Hxy; lia); try lra.
  - apply round_pos_nonneg. reflexivity.
  - by apply round_pos_le.
  - pose proof (round_pos_nonneg prec emin (- (Z.neg px # dx)) eq_refl). lra.
  - pose proof (round_pos_nonneg prec emin (- (Z.neg px # dx)) eq_refl).
    pose proof (round_pos_nonneg prec emin (Z.pos py # dy) eq_refl). lra.
  - apply Qopp_le_compat. apply round_pos_le; [done | reflexivity |].
    by apply Qopp_le_compat.
Qed.

(** Some values: 0.1, the relative threshold [100.0 * (29 / 100)], the
    sum [0.1 + 0.2], the smallest subnormal for half of itself plus a
    little, and the singles nearest to 16777217 and to 100.2. *)
Lemma rounding_examples :
  (Ieee.float64 (1 # 10) == 3602879701896397 # 36028797018963968)%Q /\
  (Ieee.mul 100 (Ieee.div 29 100) == 8162774324609023 # 281474976710656)%Q /\
  (Ieee.add (Ieee.float64 (1 # 10)) (Ieee.float64 (2 # 10))
     == 1351079888211149 # 4503599627370496)%Q /\
  (Ieee.float64 ((3 # 4) * Ieee.pow2 (-1074)) == Ieee.pow2 (-1074))%Q /\
  (Ieee.float32 16777217 == 16777216)%Q /\
  (Ieee.float32 (1002 # 10) == 6566707 # 65536)%Q.
Proof. repeat split; vm_compute; reflexivity. Qed.



Lemma mul_zero_l (a b : Q) : (a == 0)%Q -> Ieee.mul a b = 0%Q.
Proof. intros Ha. apply round_zero. rewrite Ha. ring. Qed.

Lemma float64_le (x y : Q) : (x <= y)%Q -> (Ieee.float64 x <= Ieee.float64 y)%Q.
Proof. apply round_le. lia. Qed.

(** ** Comparisons and extrema of floats *)

Lemma lt_spec (a b : Q) : Np.lt a b = true <-> (a < b)%Q.
Proof.
  unfold Np.lt. rewrite negb_true_iff. split.
  - intros H. apply Qnot_le_lt. intros Hle.
    apply Qle_bool_iff in Hle. congruence.
  - intros H. destruct (Qle_bool b a) eqn:E; [|done].
    apply Qle_bool_iff in E. exfalso. by apply (Qlt_not_le a b).
Qed.

Lemma lt_false (a b : Q) : Np.lt a b = false <-> (b <= a)%Q.
Proof.
  unfold Np.lt. rewrite negb_false_iff. apply Qle_bool_iff.
Qed.

Lemma qmax_cases (a b : Q) :
  (Np.qmax a b = a /\ (b <= a)%Q) \/ (Np.qmax a b = b /\ (a <= b)%Q).
Proof.
  unfold Np.qmax. destruct (Qle_bool a b) eqn:E.
  - right. split; [done|]. by apply Qle_bool_iff.
  - left. split; [done|]. apply Qlt_le_weak, Qnot_le_lt.
    intros H. apply Qle_bool_iff in H. congruence.
Qed.

Lemma foldl_qmax_spec (a : list Q) (x : Q) :
  (foldl Np.qmax x a = x \/ foldl Np.qmax x a ∈ a) /\
  (x <= foldl Np.qmax x a)%Q /\
  (forall y, y ∈ a -> (y <= foldl Np.qmax x a)%Q).
Proof.
  revert x; induction a as [|z a IH]; intros x; simpl.
  - split; [by left|]. split; [apply Qle_refl|]. intros y Hy. by apply elem_of_nil in Hy.
  - destruct (IH (Np.qmax x z)) as (Hin & Hge & Hall).
    destruct (qmax_cases x z) as [[Heq Hle]|[Heq Hle]]; rewrite Heq in *.
    + split; [destruct Hin; [by left | right; by right]|].
      split; [done|]. intros y Hy. apply elem_of_cons in Hy as [->|Hy]; [|by apply Hall].
      by eapply Qle_trans.
    + split; [right; destruct Hin as [->|Hin]; [left | by right]; done|].
      split; [by eapply Qle_trans|].
      intros y Hy. apply elem_of_cons in Hy as [->|Hy]; [done | by apply Hall].
Qed.

(** [a.max()] is an element of a non-empty array and bounds all of them. *)
Lemma max_spec (a : list Q) :
  a <> [] ->
  exists m, Np.max a = Ok m /\ m ∈ a /\ forall y, y ∈ a -> (y <= m)%Q.
Proof.
  destruct a as [|x a]; [done|]. intros _. simpl.
  exists (foldl Np.qmax x a). split; [done|].
  destruct (foldl_qmax_spec a x) as (Hin & Hge & Hall). split.
  - destruct Hin as [->|Hin]; [left | by right].
  - intros y Hy. apply elem_of_cons in Hy as [->|Hy]; [done | by apply Hall].
Qed.

(** ** [np.where(a > t)] *)

Lemma where_gt_from_spec (a : list Q) (t : Q) (k i : nat) :
  i ∈ Np.where_gt_from k a t <->
  (k <= i)%nat /\ exists y, a !! (i - k)%nat = Some y /\ (t < y)%Q.
Proof.
  revert k; induction a as [|x a IH]; intros k; simpl.
  - split; [intros H; by apply elem_of_nil in H | intros (_ & y & H & _); done].
  - assert (i ∈ Np.where_gt_from (S k) a t <->
            (k < i)%nat /\ exists y, (x :: a) !! (i - k)%nat = Some y /\ (t < y)%Q) as Hrec.
    { rewrite IH. split.
      - intros (Hk & y & Hy & Hlt). split; [lia|]. exists y. split; [|done].
        replace (i - k)%nat with (S (i - S k)) by lia. done.
      - intros (Hk & y & Hy & Hlt). split; [lia|]. exists y. split; [|done].
        replace (i - k)%nat with (S (i - S k)) in Hy by lia. done. }
    destruct (Np.lt t x) eqn:E.
    + rewrite elem_of_cons, Hrec. split.
      * intros [->|(Hk & Hy)]; [|split; [lia | done]].
        split; [lia|]. exists x. rewrite Nat.sub_diag. split; [done|]. by apply lt_spec.
      * intros (Hk & y & Hy & Hlt).
        destruct (decide (i = k)) as [->|Hne]; [by left|].
        right. split; [lia|]. eauto.
    + rewrite Hrec. split.
      * intros (Hk & Hy). split; [lia | done].
      * intros (Hk & y & Hy & Hlt).
        destruct (decide (i = k)) as [->|Hne]; [|split; [lia | eauto]].
        rewrite Nat.sub_diag in Hy. simpl in Hy. inversion Hy; subst.
        apply lt_spec in Hlt. congruence.
Qed.

Lemma where_gt_from_sorted (a : list Q) (t : Q) (k : nat) :
  StronglySorted Nat.lt (Np.where_gt_from k a t).
Proof.
  revert k; induction a as [|x a IH]; intros k; simpl; [constructor|].
  destruct (Np.lt t x); [|apply IH].
  constructor; [apply IH|].
  apply Forall_forall. intros i Hi.
  apply where_gt_from_spec in Hi.
  unfold Nat.lt. lia.
Qed.

Lemma where_gt_from_none (a : list Q) (t : Q) (k : nat) :
  (forall y, y ∈ a -> (y <= t)%Q) -> Np.where_gt_from k a t = [].
Proof.
  revert k; induction a as [|x a IH]; intros k H; simpl; [done|].
  assert (Np.lt t x = false) as -> by (apply lt_false, H; left).
  apply IH. intros y Hy. apply H. by right.
Qed.

(** ** Local maxima of a constant signal *)

Lemma local_maxima_loop_flat (x : list Q) (i_max i fuel : nat) :
  (forall k, (nth k x 0 <= 0)%Q /\ (0 <= nth k x 0)%Q) ->
  Scipy.local_maxima_loop x i_max i fuel = [].
Proof.
  intros Hflat. revert i; induction fuel as [|fuel IH]; intros i; simpl; [done|].
  destruct (i <? i_max)%nat; [|done].
  assert (Np.lt (nth (i - 1) x 0%Q) (nth i x 0%Q) = false) as ->; [|apply IH].
  apply lt_false. eapply Qle_trans; [apply Hflat | apply Hflat].
Qed.

Lemma nth_all_zero (x : list Q) (k : nat) :
  (forall y, y ∈ x -> (y == 0)%Q) -> (nth k x 0 <= 0)%Q /\ (0 <= nth k x 0)%Q.
Proof.
  intros H. destruct (nth_in_or_default k x 0%Q) as [Hin| ->].
  - apply (proj2 (list_elem_of_In _ _)) in Hin. apply H in Hin.
    rewrite Hin. split; apply Qle_refl.
  - split; apply Qle_refl.
Qed.

(** ** Peak detection *)

(** C6 (as the code has it): in centroid mode the detector returns exactly
    the indices whose intensity is strictly above the relative threshold
    of line 15, which is the product of the maximum intensity and
    threshold/100 computed in doubles; each of them once and in increasing
    order, so that neighbouring indices are never merged.  On the
    intensities [1,10,2,10,1] with a threshold of 50 it returns the
    indices 1 and 3. *)
Theorem C6_centroid_mode_threshold
    (keep_distance keep_prominence keep_width : list Q -> list nat -> Q -> nat -> bool)
    (peak_properties : list Q -> list nat -> properties)
    (threshold distance prominence width : Q) :
  (forall spectrum : spectrum,
     intensity_array spectrum <> [] ->
     exists (intensity_max : Q) (peaks : list nat),
       Np.max (intensity_array spectrum) = Ok intensity_max /\
       intensity_max ∈ intensity_array spectrum /\
       (forall y, y ∈ intensity_array spectrum -> (y <= intensity_max)%Q) /\
       peak_detection keep_distance keep_prominence keep_width peak_properties
         spectrum threshold distance prominence width true = Ok (Peaks peaks) /\
       StronglySorted Nat.lt peaks /\
       forall i : nat,
         i ∈ peaks <->
         exists y, intensity_array spectrum !! i = Some y /\
                   (Ieee.mul intensity_max (Ieee.div threshold 100) < y)%Q) /\
  (forall (mz : list Q) (l : loc),
     peak_detection keep_distance keep_prominence keep_width peak_properties
       (Spectrum mz [1; 10; 2; 10; 1]%Q l) 50 distance prominence width true
     = Ok (Peaks [1; 3]%nat)).
Proof.
  split; [|intros mz l; vm_compute; reflexivity].
  intros spectrum Hne.
  destruct (max_spec _ Hne) as (m & Hmax & Hin & Hall).
  exists m, (Np.where_gt (intensity_array spectrum) (Ieee.mul m (Ieee.div threshold 100))).
  unfold peak_detection. rewrite Hmax. simpl.
  repeat split; try done.
  - apply where_gt_from_sorted.
  - intros Hi. apply where_gt_from_spec in Hi as (_ & y & Hy & Hlt).
    rewrite Nat.sub_0_r in Hy. eauto.
  - intros (y & Hy & Hlt). apply where_gt_from_spec.
    split; [lia|]. rewrite Nat.sub_0_r. eauto.
Qed.

Lemma C6_centroid_mode_threshold_witness :
  exists (intensity_max : Q) (peaks : list nat),
    Np.max [3; 0; 7; 7; 2]%Q = Ok intensity_max /\
    intensity_max ∈ [3; 0; 7; 7; 2]%Q /\
    (forall y, y ∈ [3; 0; 7; 7; 2]%Q -> (y <= intensity_max)%Q) /\
    peak_detection (fun _ _ _ _ => true) (fun _ _ _ _ => true) (fun _ _ _ _ => true)
      (fun _ _ => Properties [] [])
      (Spectrum [100; 101; 102; 103; 104]%Q [3; 0; 7; 7; 2]%Q 0) 40 4 (8 # 10) 2 true
    = Ok (Peaks peaks) /\
    StronglySorted Nat.lt peaks /\
    forall i : nat,
      i ∈ peaks <->
      exists y, [3; 0; 7; 7; 2]%Q !! i = Some y /\
                (Ieee.mul intensity_max (Ieee.div 40 100) < y)%Q.
Proof.
  apply (proj1 (C6_centroid_mode_threshold
                  (fun _ _ _ _ => true) (fun _ _ _ _ => true) (fun _ _ _ _ => true)
                  (fun _ _ => Properties [] []) 40 4 (8 # 10) 2)
               (Spectrum [100; 101; 102; 103; 104]%Q [3; 0; 7; 7; 2]%Q 0)).
  simpl. discriminate.
Defined.

(** With the maximum 100 and a threshold of 29 the relative threshold of
    line 15 is 28.999999999999996, below 29: the index of the intensity 29
    is returned although 29 does not exceed 29/100 times the maximum. *)
Lemma C6_rounded_threshold_counterexample :
  peak_detection (fun _ _ _ _ => true) (fun _ _ _ _ => true) (fun _ _ _ _ => true)
    (fun _ _ => Properties [] [])
    (Spectrum [500; 501]%Q [100; 29]%Q 0) 29 4 (8 # 10) 2 true
  = Ok (Peaks [0; 1]%nat) /\
  (Ieee.mul 100 (Ieee.div 29 100) < 29)%Q /\
  ~ (29 / 100 * 100 < 29)%Q.
Proof.
  split; [vm_compute; reflexivity|]. split; [vm_compute; reflexivity|].
  vm_compute. discriminate.
Qed.

(** C9 (as the code has it): on a non-empty intensity array whose values
    are all zero the detector returns an empty peak set and does not raise,
    in centroid mode and, when the distance is at least 1, in profile mode;
    on an empty intensity array it raises in both modes, because the
    maximum of an empty array does not exist. *)
Theorem C9_all_zero_or_empty
    (keep_distance keep_prominence keep_width : list Q -> list nat -> Q -> nat -> bool)
    (peak_properties : list Q -> list nat -> properties)
    (spectrum : spectrum) (threshold distance prominence width : Q) (centroid : bool) :
  (intensity_array spectrum <> [] ->
   (forall y, y ∈ intensity_array spectrum -> (y == 0)%Q) ->
   (centroid = false -> (1 <= distance)%Q) ->
   exists d,
     peak_detection keep_distance keep_prominence keep_width peak_properties
       spectrum threshold distance prominence width centroid = Ok d /\
     detected_peaks d = []) /\
  (intensity_array spectrum = [] ->
   peak_detection keep_distance keep_prominence keep_width peak_properties
     spectrum threshold distance prominence width centroid = Raise ValueError).
Proof.
  split.
  - intros Hne Hzero Hdist.
    destruct (max_spec _ Hne) as (m & Hmax & Hin & Hall).
    unfold peak_detection. rewrite Hmax. simpl.
    destruct centroid.
    + eexists. split; [reflexivity|]. simpl.
      apply where_gt_from_none. intros y Hy.
      rewrite (Hzero y Hy), (mul_zero_l m _ (Hzero m Hin)). apply Qle_refl.
    + unfold find_peaks.
      assert (Np.lt distance 1 = false) as -> by (apply lt_false; auto).
      unfold Scipy.local_maxima.
      rewrite local_maxima_loop_flat by (intros k; by apply nth_all_zero).
      simpl. eexists. split; reflexivity.
  - intros Hempty. unfold peak_detection. by rewrite Hempty.
Qed.

Lemma C9_all_zero_or_empty_witness :
  exists d,
    peak_detection (fun _ _ _ _ => true) (fun _ _ _ _ => true) (fun _ _ _ _ => true)
      (fun _ _ => Properties [] [])
      (Spectrum [100; 101; 102]%Q [0; 0; 0]%Q 0) 5 4 (8 # 10) 2 false = Ok d /\
    detected_peaks d = [].
Proof.
  apply (proj1 (C9_all_zero_or_empty
                  (fun _ _ _ _ => true) (fun _ _ _ _ => true) (fun _ _ _ _ => true)
                  (fun _ _ => Properties [] [])
                  (Spectrum [100; 101; 102]%Q [0; 0; 0]%Q 0) 5 4 (8 # 10) 2 false)).
  - simpl. discriminate.
  - simpl. intros y Hy.
    repeat (apply elem_of_cons in Hy as [->|Hy]; [reflexivity|]).
    by apply elem_of_nil in Hy.
  - intros _. unfold Qle. simpl. lia.
Defined.

(** On an empty intensity array the detector raises [ValueError], in
    centroid mode and in profile mode, instead of returning no peak. *)
Lemma C9_empty_array_counterexample :
  peak_detection (fun _ _ _ _ => true) (fun _ _ _ _ => true) (fun _ _ _ _ => true)
    (fun _ _ => Properties [] []) (Spectrum [] [] 0) 5 4 (8 # 10) 2 true
  = Raise ValueError /\
  peak_detection (fun _ _ _ _ => true) (fun _ _ _ _ => true) (fun _ _ _ _ => true)
    (fun _ _ => Properties [] []) (Spectrum [] [] 0) 5 4 (8 # 10) 2 false
  = Raise ValueError.
Proof. split; reflexivity. Qed.

(** ** Centroids *)




Lemma sum_all_zero (l : list Q) : (forall y, y ∈ l -> (y == 0)%Q) -> (Np.sum l == 0)%Q.
Proof.
  induction l as [|x l IH]; simpl; intros H; [reflexivity|].
  rewrite (H x) by left. rewrite IH; [reflexivity|].
  intros y Hy. apply H. by right.
Qed.




(** *** The pairwise sum *)








(** The fuel of [pairwise_sum] never runs out: any fuel of at least the
    length gives the same sum, so a long array is the sum of its two
    parts. *)
Lemma pairwise_sum_fuel (f1 f2 : nat) (a : list Q) :
  (length a <= f1)%nat -> (length a <= f2)%nat ->
  Np.pairwise_sum f1 a = Np.pairwise_sum f2 a.
Proof.
  revert f2 a. induction f1 as [|f1 IH]; intros f2 a H1 H2.
  - destruct a; [|simpl in H1; lia]. by destruct f2.
  - destruct f2 as [|f2].
    { destruct a; [done | simpl in H2; lia]. }
    cbn [Np.pairwise_sum].
    destruct (Nat.ltb_spec (length a) 8) as [|H8]; [done|].
    destruct (Nat.leb_spec (length a) 128) as [|H128]; [done|].
    set (n2 := (length a / 2 - (length a / 2) mod 8)%nat).
    assert (0 < n2 < length a)%nat as Hn2.
    { assert (length a / 2 < length a)%nat by (apply Nat.div_lt; lia).
      assert (64 <= length a / 2)%nat by (apply Nat.div_le_lower_bound; lia).
      assert ((length a / 2) mod 8 < 8)%nat by (apply Nat.mod_upper_bound; lia).
      unfold n2. lia. }
    f_equal; apply IH; rewrite ?length_take, ?length_drop; lia.
Qed.

Lemma sum64_split (a : list Q) :
  (128 < length a)%nat ->
  let n2 := (length a / 2 - (length a / 2) mod 8)%nat in
  Np.sum64 a = Ieee.add (Np.sum64 (take n2 a)) (Np.sum64 (drop n2 a)).
Proof.
  intros Hlen n2. unfold Np.sum64.
  destruct (length a) as [|n] eqn:E; [lia|].
  cbn [Np.pairwise_sum]. rewrite E.
  destruct (Nat.ltb_spec (S n) 8) as [|H8]; [lia|].
  destruct (Nat.leb_spec (S n) 128) as [|H128]; [lia|].
  assert (0 < n2 < S n)%nat as Hn2.
  { assert (S n / 2 < S n)%nat by (apply Nat.div_lt; lia).
    assert (64 <= S n / 2)%nat by (apply Nat.div_le_lower_bound; lia).
    assert ((S n / 2) mod 8 < 8)%nat by (apply Nat.mod_upper_bound; lia).
    unfold n2. lia. }
  fold n2.
  f_equal; apply pairwise_sum_fuel; rewrite ?length_take, ?length_drop; lia.
Qed.

(** *** The loop body *)








(** ** Sorting and the default bin width *)


Lemma insert_sorted_length (x : Q) (l : list Q) :
  (length l <= length (Np.insert_sorted x l))%nat.
Proof.
  induction l as [|z l IH]; simpl; [lia|].
  destruct (Qeq_bool x z); [done|]. destruct (Qle_bool x z); simpl; lia.
Qed.








(** ** Averaging *)


Lemma sum_cons (x : Q) (l : list Q) : Np.sum (x :: l) = (x + Np.sum l)%Q.
Proof. reflexivity. Qed.



Lemma first_ok {A : Type} (l : list A) : l <> [] -> exists x, Py.first l = Ok x /\ x ∈ l.
Proof.
  destruct l as [|x l]; [done|]. intros _. exists x. split; [done | left].
Qed.

Lemma last_ok {A : Type} (l : list A) : l <> [] -> exists x, Py.last l = Ok x /\ x ∈ l.
Proof.
  intros Hne. unfold Py.last.
  destruct (rev l) as [|x l'] eqn:E.
  - apply (f_equal (@rev A)) in E. rewrite rev_involutive in E. done.
  - exists x. split; [done|].
    apply list_elem_of_In, in_rev. rewrite E. by left.
Qed.

(** ** [np.interp] with [left=0, right=0] is linear interpolation *)




Lemma last_sorted_ge (l : list Q) (d x : Q) :
  StronglySorted Qle l -> x ∈ l -> (x <= List.last l d)%Q.
Proof.
  revert x; induction l as [|y l IH]; intros x Hs Hx; [by apply elem_of_nil in Hx|].
  apply StronglySorted_inv in Hs as [Hs Hall].
  destruct l as [|z l].
  - apply list_elem_of_singleton in Hx as ->. apply Qle_refl.
  - change (List.last (y :: z :: l) d) with (List.last (z :: l) d).
    apply elem_of_cons in Hx as [->|Hx]; [|by apply IH].
    eapply Qle_trans; [|apply (IH z); [done | left]].
    apply Forall_cons in Hall as [H _]. exact H.
Qed.





(** What a successful call returns and writes: the new dictionary refers
    to the [scanList] of the first scan, and the metadata found there gets
    the new filter string. *)
Lemma average_spectra_ok_inv (spectra : list spectrum) (bin_width : option Q)
    (fs : pyval) (h h' : store) (avg : spectrum) :
  average_spectra spectra bin_width fs h = (Ok avg, h') ->
  exists s0 label,
    Py.first spectra = Ok s0 /\
    new_filter_string spectra fs h = Ok label /\
    merged spectra bin_width h = Ok (mz_array avg, intensity_array avg) /\
    scanList avg = scanList s0 /\
    h' = alter (set_filter_string label) (scanList s0) h.
Proof.
  unfold average_spectra.
  destruct (merged spectra bin_width h) as [[grid ys]|e]; [|by inversion 1].
  destruct (Py.first spectra) as [s0|e]; [|by inversion 1].
  destruct (new_filter_string spectra fs h) as [label|e]; [|by inversion 1].
  intros H. inversion H; subst. by exists s0, label.
Qed.

(** A failed call leaves the store as it was. *)
Lemma average_spectra_raise_store (spectra : list spectrum) (bin_width : option Q)
    (fs : pyval) (h h' : store) (e : exn) :
  average_spectra spectra bin_width fs h = (Raise e, h') -> h' = h.
Proof.
  unfold average_spectra.
  destruct (merged spectra bin_width h) as [[grid ys]|e1]; [|by inversion 1].
  destruct (Py.first spectra) as [s0|e2]; [|by inversion 1].
  destruct (new_filter_string spectra fs h) as [label|e3]; by inversion 1.
Qed.

(** Scans that do not share the [scanList] of the first scan keep their
    value, and no array of any input scan changes. *)
Lemma average_spectra_frame (spectra : list spectrum) (bin_width : option Q)
    (fs : pyval) (h h' : store) (avg s0 s : spectrum) :
  average_spectra spectra bin_width fs h = (Ok avg, h') ->
  Py.first spectra = Ok s0 ->
  scanList s <> scanList s0 ->
  scan_value h' s = scan_value h s.
Proof.
  intros Hok Hfirst Hne.
  apply average_spectra_ok_inv in Hok as (s0' & label & Hf & _ & _ & _ & ->).
  assert (s0' = s0) as -> by congruence.
  unfold scan_value. by rewrite lookup_alter_ne.
Qed.

(** After every successful call the metadata of the first input scan
    carries the new filter string. *)
Lemma average_spectra_overwrites (spectra : list spectrum) (bin_width : option Q)
    (fs : pyval) (h h' : store) (avg : spectrum) :
  average_spectra spectra bin_width fs h = (Ok avg, h') ->
  exists s0 info label,
    Py.first spectra = Ok s0 /\
    h !! scanList s0 = Some info /\
    new_filter_string spectra fs h = Ok label /\
    h' !! scanList s0 = Some (set_filter_string label info).
Proof.
  intros Hok.
  apply average_spectra_ok_inv in Hok as (s0 & label & Hfirst & Hlabel & _ & _ & ->).
  pose proof Hlabel as Hl. unfold new_filter_string in Hl. rewrite Hfirst in Hl.
  simpl in Hl. unfold scan_of in Hl at 1.
  destruct (h !! scanList s0) as [info|] eqn:Hinfo; [|done].
  exists s0, info, label. repeat split; try done.
  by rewrite lookup_alter_eq, Hinfo.
Qed.



(** C7 (as the code has it): the averager does not check its argument.
    Called on an empty sequence it fails at its first statement, the
    access to the first scan, with [IndexError]; it returns no spectrum
    and writes nothing. *)
Theorem C7_empty_input_fails (bin_width : option Q) (filter_string : pyval) (h : store) :
  average_spectra [] bin_width filter_string h = (Raise IndexError, h).
Proof. reflexivity. Qed.

(** The exception on an empty sequence is the [IndexError] of [spectra[0]],
    not the [ValueError] of a check of the argument. *)
Lemma C7_index_error_counterexample :
  exists e,
    average_spectra [] None PyNone sample_store = (Raise e, sample_store) /\
    e = IndexError /\ e <> ValueError.
Proof. exists IndexError. repeat split. discriminate. Qed.

(** C10 at a concrete input: averaging the single sample scan, whose
    arrays and scan window limits are floats, overwrites the filter string
    of that input scan, because the returned dictionary shares the
    [scanList] of the first input. *)
Theorem C10_input_filter_string_overwritten :
  exists avg h',
    average_spectra [sample_scan] None (PyInt 10) sample_store = (Ok avg, h') /\
    scanList avg = scanList sample_scan /\
    filter_string <$> sample_store !! scanList sample_scan
      = Some (Some "ITMS + c ESI Full ms2") /\
    filter_string <$> h' !! scanList sample_scan
      = Some (Some "AV: 0.50-0.50; 10") /\
    scan_value h' sample_scan <> scan_value sample_store sample_scan.
Proof.
  do 2 eexists. split; [reflexivity|].
  split; [reflexivity|]. split; [reflexivity|]. split; [reflexivity|].
  intros H. apply (f_equal snd) in H. vm_compute in H. discriminate.
Qed.

(** ** Interpolation between energies *)





Lemma last_nonempty_default {A : Type} (l : list A) (d d' : A) :
  l <> [] -> List.last l d = List.last l d'.
Proof.
  induction l as [|x l IH]; [done|]. intros _.
  destruct l as [|y l]; [done|].
  change (List.last (y :: l) d = List.last (y :: l) d'). by apply IH.
Qed.

Lemma py_last_last {A : Type} (l : list A) (d : A) :
  l <> [] -> Py.last l = Ok (List.last l d).
Proof.
  intros Hne. destruct (exists_last Hne) as (l' & x & ->).
  unfold Py.last. rewrite rev_unit. by rewrite last_last.
Qed.



Lemma mapM_raise {A B : Type} (f : A -> result B) (l : list A) (e : exn) :
  mapM f l = Raise e -> exists x, x ∈ l /\ f x = Raise e.
Proof.
  induction l as [|x l IH]; simpl; [done|].
  destruct (f x) as [y|e'] eqn:E; simpl.
  - destruct (mapM f l) as [ys|e'']; simpl; [done|].
    intros H. inversion H; subst. destruct IH as (x' & Hx' & Hf); [done|].
    exists x'. split; [by right | done].
  - intros H. inversion H; subst. exists x. split; [left | done].
Qed.













(** Without any m/z bin the loop body never runs: no target is checked
    and every target gets an empty array. *)
Lemma interpolate_spectra_no_bins (spectra : list spectrum) (s0 : spectrum)
    (targets energies : list Q) :
  spectra !! 0%nat = Some s0 ->
  intensity_array s0 = [] ->
  interpolate_spectra spectra targets energies =
    Ok (foldl (fun d target_energy => dict_set target_energy [] d) [] targets).
Proof.
  intros Hs0 Hempty. unfold interpolate_spectra.
  destruct spectra as [|s spectra]; [done|]. simpl in Hs0. inversion Hs0; subst s.
  simpl. by rewrite Hempty.
Qed.




(** * Further properties *)

(** ** Loading: the index of the scans by collision energy *)

Lemma Qeq_bool_true_trans (a b c : Q) :
  Qeq_bool a b = true -> Qeq_bool b c = Qeq_bool a c.
Proof.
  intros Hab. apply Qeq_bool_iff in Hab.
  destruct (Qeq_bool b c) eqn:Hbc, (Qeq_bool a c) eqn:Hac; try done.
  - apply Qeq_bool_iff in Hbc. rewrite <- Hab in Hbc.
    apply Qeq_bool_iff in Hbc. congruence.
  - apply Qeq_bool_iff in Hac. rewrite Hab in Hac.
    apply Qeq_bool_iff in Hac. congruence.
Qed.

Lemma dict_get_index_append (e e' : Q) (i : nat) (d : index_dict) :
  dict_get e (index_append e' i d) =
    if Qeq_bool e' e then Some (default [] (dict_get e d) ++ [i])%list
    else dict_get e d.
Proof.
  induction d as [|[k v] d IH]; simpl.
  - by destruct (Qeq_bool e' e).
  - destruct (Qeq_bool k e') eqn:Hk; simpl.
    + rewrite <- (Qeq_bool_true_trans k e' e Hk).
      by destruct (Qeq_bool e' e).
    + destruct (Qeq_bool k e) eqn:Hke; [|done].
      destruct (Qeq_bool e' e) eqn:He; [|done].
      apply Qeq_bool_iff in Hke, He. rewrite <- He in Hke.
      apply Qeq_bool_iff in Hke. congruence.
Qed.

(** The loop, started from any dictionary: the scans listed under [e] are
    appended, in the order of the reader, to what the dictionary held. *)
Lemma index_loop_lookup (reader : list ms_scan) (d : index_dict) (e : Q) :
  dict_get e (foldl index_scan d reader) =
    match map scan_index (List.filter (listed_under e) reader) with
    | [] => dict_get e d
    | l => Some (default [] (dict_get e d) ++ l)%list
    end.
Proof.
  revert d; induction reader as [|scan reader IH]; intros d; [done|].
  simpl foldl. rewrite IH. simpl List.filter.
  assert (listed_under e scan =
          (negb (ms_level scan =? 1)%Z &&
           match scan_energy scan with
           | Some energy => Qeq_bool energy e
           | None => false
           end)%bool) as -> by reflexivity.
  unfold index_scan.
  destruct (ms_level scan =? 1)%Z; simpl; [done|].
  destruct (scan_energy scan) as [energy|]; simpl; [|done].
  rewrite dict_get_index_append.
  destruct (Qeq_bool energy e); simpl; [|done].
  destruct (map scan_index (List.filter (listed_under e) reader)); [done|].
  by rewrite <- app_assoc.
Qed.

(** X1: the index built by [load_data] maps an energy to exactly the
    indices of the scans that are not MS1 scans and carry that collision
    energy, in the order of the file; an energy no such scan carries is
    not a key. *)
Theorem X1_load_data_buckets (reader : list ms_scan) (e : Q) :
  dict_get e (load_data reader).2 =
    match map scan_index (List.filter (listed_under e) reader) with
    | [] => None
    | l => Some l
    end.
Proof.
  unfold load_data. simpl. rewrite index_loop_lookup. simpl.
  by destruct (map scan_index (List.filter (listed_under e) reader)).
Qed.

(** X2: a bucket of the index is never empty, so the first and the last
    index of a bucket, which the main script takes, always exist and
    belong to scans of that energy. *)
Theorem X2_buckets_not_empty (reader : list ms_scan) (e : Q) (bucket : list nat) :
  dict_get e (load_data reader).2 = Some bucket ->
  exists first last,
    scan_range bucket = Ok (first, last) /\
    first ∈ bucket /\ last ∈ bucket /\
    forall i, i ∈ bucket ->
      exists scan, scan ∈ reader /\ scan_index scan = i /\
                   ms_level scan <> 1%Z /\
                   exists energy, scan_energy scan = Some energy /\ (energy == e)%Q.
Proof.
  unfold load_data. simpl. rewrite index_loop_lookup. simpl.
  destruct (map scan_index (List.filter (listed_under e) reader)) as [|i0 l] eqn:Hl;
    [done|].
  intros H. inversion H; subst bucket. clear H.
  destruct (first_ok (i0 :: l)) as (a & Ha & Hain); [done|].
  destruct (last_ok (i0 :: l)) as (b & Hb & Hbin); [done|].
  exists a, b. unfold scan_range. rewrite Ha, Hb. simpl.
  split; [done|]. split; [done|]. split; [done|].
  intros i Hi. rewrite <- Hl in Hi.
  apply list_elem_of_fmap in Hi as (scan & -> & Hscan).
  apply list_elem_of_In, filter_In in Hscan as [Hin Hlisted].
  exists scan. split; [by apply list_elem_of_In|]. split; [done|].
  unfold listed_under in Hlisted. apply andb_true_iff in Hlisted as [Hlevel Henergy].
  split.
  - apply negb_true_iff, Z.eqb_neq in Hlevel. done.
  - destruct (scan_energy scan) as [energy|]; [|done].
    exists energy. split; [done|]. by apply Qeq_bool_iff.
Qed.

Lemma X2_buckets_not_empty_witness :
  exists first last,
    scan_range [1; 3]%nat = Ok (first, last) /\
    first ∈ [1; 3]%nat /\ last ∈ [1; 3]%nat /\
    forall i, i ∈ [1; 3]%nat ->
      exists scan,
        scan ∈ [MsScan 0 1 None;
                MsScan 1 2 (Some (PrecursorList (Some [Precursor (Some (Activation (Some 10%Q)))])));
                MsScan 2 2 (Some (PrecursorList (Some [Precursor (Some (Activation (Some 20%Q)))])));
                MsScan 3 2 (Some (PrecursorList (Some [Precursor (Some (Activation (Some 10%Q)))])))] /\
        scan_index scan = i /\ ms_level scan <> 1%Z /\
        exists energy, scan_energy scan = Some energy /\ (energy == 10)%Q.
Proof.
  apply (X2_buckets_not_empty
           [MsScan 0 1 None;
            MsScan 1 2 (Some (PrecursorList (Some [Precursor (Some (Activation (Some 10%Q)))])));
            MsScan 2 2 (Some (PrecursorList (Some [Precursor (Some (Activation (Some 20%Q)))])));
            MsScan 3 2 (Some (PrecursorList (Some [Precursor (Some (Activation (Some 10%Q)))])))]
           10%Q [1; 3]%nat).
  reflexivity.
Defined.

(** ** The main script: which scans are averaged *)

Lemma sorted_map_filter {A B : Type} (R : B -> B -> Prop) (f : A -> B)
    (p : A -> bool) (l : list A) :
  StronglySorted R (map f l) -> StronglySorted R (map f (List.filter p l)).
Proof.
  induction l as [|x l IH]; simpl; intros Hs; [constructor|].
  apply StronglySorted_inv in Hs as [Hs Hall].
  destruct (p x); simpl; [|by apply IH].
  constructor; [by apply IH|].
  rewrite Forall_forall in Hall. apply Forall_forall. intros y Hy.
  apply Hall. apply list_elem_of_fmap in Hy as (z & -> & Hz).
  apply list_elem_of_fmap. exists z. split; [done|].
  apply list_elem_of_In. apply list_elem_of_In, filter_In in Hz. tauto.
Qed.

Lemma sorted_nat_bounds (l : list nat) (a b i : nat) :
  StronglySorted lt l -> Py.first l = Ok a -> Py.last l = Ok b ->
  i ∈ l -> (a <= i <= b)%nat.
Proof.
  intros Hs Ha Hb Hi. destruct l as [|x l]; [done|]. simpl in Ha. inversion Ha; subst x.
  rewrite (py_last_last _ a) in Hb by done. inversion Hb; subst b. clear Ha Hb.
  revert a i Hs Hi. induction l as [|y l IH]; intros a i Hs Hi.
  - apply list_elem_of_singleton in Hi as ->. simpl. lia.
  - apply StronglySorted_inv in Hs as [Hs Hall].
    change (List.last (a :: y :: l) a) with (List.last (y :: l) a).
    rewrite (last_nonempty_default (y :: l) a y) by done.
    assert (a < y)%nat as Hay by (apply Forall_cons in Hall as [H _]; exact H).
    apply elem_of_cons in Hi as [->|Hi].
    + destruct (IH y y Hs) as [H1 H2]; [left|]. simpl List.last in *. lia.
    + destruct (IH y i Hs Hi) as [H1 H2]. simpl List.last in *. lia.
Qed.

(** X3: for a file whose scan indices increase, the scans averaged for an
    energy that is a key of the index are all the scans whose index lies
    between the first and the last index of the bucket, both included:
    every scan of the bucket, and also every scan in between that is not in
    the bucket. *)
Theorem X3_averaged_scan_range (reader : list ms_scan) (e : Q) (bucket : list nat) :
  StronglySorted lt (map scan_index reader) ->
  dict_get e (load_data reader).2 = Some bucket ->
  exists first last indices,
    scan_range bucket = Ok (first, last) /\
    scans_to_average (load_data reader).2 e = Some (Ok indices) /\
    (forall i, i ∈ indices <-> (first <= i <= last)%nat) /\
    (forall i, i ∈ bucket -> i ∈ indices).
Proof.
  intros Hsorted Hget.
  assert (StronglySorted lt bucket /\ bucket <> []) as [Hs Hne].
  { unfold load_data in Hget. simpl in Hget. rewrite index_loop_lookup in Hget.
    simpl in Hget.
    pose proof (sorted_map_filter lt scan_index (listed_under e) reader Hsorted) as H.
    destruct (map scan_index (List.filter (listed_under e) reader)); [done|].
    inversion Hget; subst. done. }
  destruct (first_ok bucket Hne) as (a & Ha & _).
  destruct (last_ok bucket Hne) as (b & Hb & _).
  exists a, b, (seq a (S b - a)).
  assert (forall i, i ∈ seq a (S b - a) <-> (a <= i <= b)%nat) as Hrange.
  { intros i. rewrite elem_of_seq. lia. }
  unfold scans_to_average, scan_range. rewrite Hget, Ha, Hb. simpl.
  split; [done|]. split; [done|]. split; [done|].
  intros i Hi. apply Hrange. by eapply sorted_nat_bounds.
Qed.

Lemma X3_averaged_scan_range_witness :
  exists first last indices,
    scan_range [1; 3]%nat = Ok (first, last) /\
    scans_to_average
      (load_data
         [MsScan 0 1 None;
          MsScan 1 2 (Some (PrecursorList (Some [Precursor (Some (Activation (Some 10%Q)))])));
          MsScan 2 2 (Some (PrecursorList (Some [Precursor (Some (Activation (Some 20%Q)))])));
          MsScan 3 2 (Some (PrecursorList (Some [Precursor (Some (Activation (Some 10%Q)))])))]).2
      10%Q = Some (Ok indices) /\
    (forall i, i ∈ indices <-> (first <= i <= last)%nat) /\
    (forall i, i ∈ [1; 3]%nat -> i ∈ indices).
Proof.
  apply (X3_averaged_scan_range
           [MsScan 0 1 None;
            MsScan 1 2 (Some (PrecursorList (Some [Precursor (Some (Activation (Some 10%Q)))])));
            MsScan 2 2 (Some (PrecursorList (Some [Precursor (Some (Activation (Some 20%Q)))])));
            MsScan 3 2 (Some (PrecursorList (Some [Precursor (Some (Activation (Some 10%Q)))])))]
           10%Q [1; 3]%nat).
  - simpl. repeat constructor.
  - reflexivity.
Defined.

(** X4: the known energies the main script works with are those of
    0, 5, 10, 15, 20 that are keys of the index, in increasing order; when
    none of the five is a key the list is empty and taking its first
    element raises. *)
Theorem X4_available_energies (scan_filter_list : index_dict) :
  StronglySorted Qlt (available_energies scan_filter_list) /\
  (forall e, e ∈ available_energies scan_filter_list <->
             e ∈ default_energies /\ has_key e scan_filter_list = true) /\
  ((forall e, e ∈ default_energies -> has_key e scan_filter_list = false) ->
   Py.first (available_energies scan_filter_list) = Raise IndexError).
Proof.
  unfold available_energies. split; [|split].
  - rewrite <- (map_id (List.filter _ default_energies)).
    apply sorted_map_filter. rewrite map_id.
    unfold default_energies. repeat constructor; done.
  - intros e. rewrite !list_elem_of_In. apply filter_In.
  - intros Hnone.
    assert (List.filter (fun e => has_key e scan_filter_list) default_energies = []) as ->;
      [|done].
    induction default_energies as [|x l IH]; [done|]. simpl.
    rewrite Hnone by left. apply IH. intros e He. apply Hnone. by right.
Qed.

Lemma X4_available_energies_witness :
  Py.first (available_energies []) = Raise IndexError.
Proof.
  apply (proj2 (proj2 (X4_available_energies []))). intros e _. reflexivity.
Defined.

(** ** Interpolation between energies: the values returned *)

Lemma dict_set_fresh (t : Q) (v : list Q) (d : energy_dict) :
  no_key t d -> dict_set t v d = (d ++ [(t, v)])%list.
Proof.
  induction d as [|[k w] d IH]; simpl; intros H; [done|].
  apply Forall_cons in H as [Hk H]. simpl in Hk. rewrite Hk. by rewrite IH.
Qed.

Lemma dict_append_fresh (t y : Q) (v : list Q) (a b : energy_dict) :
  no_key t a ->
  dict_append t y (a ++ (t, v) :: b)%list = Ok (a ++ (t, (v ++ [y])%list) :: b)%list.
Proof.
  induction a as [|[k w] a IH]; simpl; intros H.
  - assert (Qeq_bool t t = true) as -> by (apply Qeq_bool_iff; reflexivity). done.
  - apply Forall_cons in H as [Hk H]. simpl in Hk. rewrite Hk. by rewrite IH.
Qed.

Lemma no_key_snoc (t t' : Q) (v : list Q) (d : energy_dict) :
  no_key t d -> ~ (t == t')%Q -> no_key t (d ++ [(t', v)])%list.
Proof.
  intros Hd Hne. apply Forall_app. split; [done|].
  constructor; [|constructor]. simpl.
  destruct (Qeq_bool t' t) eqn:E; [|done].
  apply Qeq_bool_iff in E. exfalso. apply Hne. by symmetry.
Qed.

(** The dictionary built before the loops holds the targets in order. *)
Lemma dict_init_distinct (targets : list Q) (d : energy_dict) :
  distinct_targets targets ->
  (forall t, t ∈ targets -> no_key t d) ->
  foldl (fun d target_energy => dict_set target_energy [] d) d targets
    = (d ++ map (fun t => (t, [])) targets)%list.
Proof.
  revert d; induction targets as [|t targets IH]; intros d Hdist Hfresh; simpl.
  - by rewrite app_nil_r.
  - destruct Hdist as [Hhead Hdist].
    rewrite dict_set_fresh by (apply Hfresh; left).
    rewrite IH; [by rewrite <- app_assoc | done |].
    intros t' Ht'. apply no_key_snoc; [apply Hfresh; by right|].
    rewrite Forall_forall in Hhead. by apply Hhead.
Qed.

Lemma interp_scalar_value (t : Q) (energies intensities : list Q) :
  energies <> [] -> length intensities = length energies ->
  Np.interp_scalar t energies intensities
    = Ok (interpolated_at_energy energies intensities t).
Proof.
  intros Hne Hlen. unfold Np.interp_scalar, interpolated_at_energy.
  rewrite Hlen, Nat.eqb_refl. simpl.
  destruct energies as [|x0 xs]; [done|]. destruct intensities as [|y0 ys]; [done|].
  reflexivity.
Qed.

(** One m/z index: every target inside the range gets its interpolated
    value appended. *)
Lemma fold_targets_inside (energies intensities : list Q) (g : Q -> list Q)
    (targets : list Q) (a : energy_dict) :
  energies <> [] ->
  length intensities = length energies ->
  distinct_targets targets ->
  (forall t, t ∈ targets -> inside_energies energies t /\ no_key t a) ->
  foldM (interpolate_target energies intensities)
        (a ++ map (fun t => (t, g t)) targets)%list targets
    = Ok (a ++ map (fun t =>
                      (t, (g t ++ [interpolated_at_energy energies intensities t])%list))
                   targets)%list.
Proof.
  intros Hne Hlen. revert a; induction targets as [|t targets IH]; intros a Hdist Hin;
    [done|].
  destruct Hdist as [Hhead Hdist].
  destruct (Hin t) as [(lo & hi & Hlo & Hhi & Hle1 & Hle2) Hfresh]; [left|].
  simpl. unfold interpolate_target at 1. rewrite Hlo, Hhi. simpl.
  assert (Np.lt t lo = false) as -> by by apply lt_false.
  assert (Np.lt hi t = false) as -> by by apply lt_false.
  rewrite interp_scalar_value by done. simpl.
  rewrite dict_append_fresh by done. simpl.
  rewrite (cons_middle _ a), app_assoc. rewrite IH; [by rewrite <- app_assoc | done |].
  intros t' Ht'. destruct (Hin t') as [Hinside Hfresh']; [by right|].
  split; [done|]. apply no_key_snoc; [done|].
  rewrite Forall_forall in Hhead. by apply Hhead.
Qed.

Lemma intensities_column (intensity_arrays : list (list Q)) (n i : nat) :
  (forall j, (j < n)%nat -> exists a, intensity_arrays !! j = Some a /\ (i < length a)%nat) ->
  mapM (fun j : nat => let* a := Py.index intensity_arrays j in Py.index a i) (seq 0 n)
    = Ok (column intensity_arrays n i).
Proof.
  intros H. apply mapM_all_ok. intros j Hj. apply elem_of_seq in Hj.
  destruct (H j) as (a & Ha & Hi); [lia|].
  unfold Py.index. rewrite Ha. simpl.
  destruct (lookup_lt_is_Some_2 a i Hi) as [y Hy]. rewrite Hy.
  rewrite (nth_lookup_Some _ _ [] _ Ha). by rewrite (nth_lookup_Some _ _ 0%Q _ Hy).
Qed.

(** The loop over the m/z indices [s], ..., [s + n - 1]. *)
Lemma fold_bins_inside (intensity_arrays : list (list Q)) (targets energies : list Q)
    (n s : nat) :
  energies <> [] ->
  distinct_targets targets ->
  (forall t, t ∈ targets -> inside_energies energies t) ->
  (forall j, (j < length energies)%nat ->
     exists a, intensity_arrays !! j = Some a /\ (s + n <= length a)%nat) ->
  foldM (interpolate_index intensity_arrays targets energies)
        (map (fun t => (t, interpolated_array intensity_arrays energies s t)) targets)
        (seq s n)
    = Ok (map (fun t => (t, interpolated_array intensity_arrays energies (s + n) t)) targets).
Proof.
  intros Hne Hdist Hin. revert s; induction n as [|n IH]; intros s Hlen.
  - simpl. by rewrite Nat.add_0_r.
  - simpl. unfold interpolate_index at 1.
    rewrite intensities_column.
    2:{ intros j Hj. destruct (Hlen j Hj) as (a & Ha & Hl). exists a. split; [done | lia]. }
    simpl.
    pose proof (fold_targets_inside energies
                  (column intensity_arrays (length energies) s)
                  (fun t => interpolated_array intensity_arrays energies s t)
                  targets [] Hne) as Hfold.
    simpl in Hfold. rewrite Hfold; clear Hfold.
    + simpl. replace (s + S n)%nat with (S s + n)%nat by lia.
      rewrite <- IH.
      * f_equal. apply map_ext. intros t. f_equal.
        unfold interpolated_array. by rewrite seq_S, map_app.
      * intros j Hj. destruct (Hlen j Hj) as (a & Ha & Hl). exists a. split; [done | lia].
    + unfold column. by rewrite length_map, length_seq.
    + done.
    + intros t Ht. split; [by apply Hin | constructor].
Qed.

(** For pairwise different targets inside the range and spectra aligned
    with the known energies, [interpolate_spectra] returns, for every
    target in order, one value per m/z index of the first spectrum. *)
Lemma interpolate_spectra_values (spectra : list spectrum) (s0 : spectrum)
    (targets energies : list Q) :
  energies <> [] ->
  spectra !! 0%nat = Some s0 ->
  (forall j, (j < length energies)%nat ->
     exists s, spectra !! j = Some s /\
               (length (intensity_array s0) <= length (intensity_array s))%nat) ->
  distinct_targets targets ->
  (forall t, t ∈ targets -> inside_energies energies t) ->
  interpolate_spectra spectra targets energies
    = Ok (map (fun t => (t, interpolated_array (map intensity_array spectra) energies
                              (length (intensity_array s0)) t))
              targets).
Proof.
  intros Hne Hs0 Hlen Hdist Hin. unfold interpolate_spectra.
  assert (Py.first (map intensity_array spectra) = Ok (intensity_array s0)) as ->.
  { destruct spectra; [done|]. simpl in Hs0. by inversion Hs0. }
  simpl. rewrite dict_init_distinct by (done || constructor). simpl.
  apply (fold_bins_inside (map intensity_array spectra) targets energies
           (length (intensity_array s0)) 0); try done.
  intros j Hj. destruct (Hlen j Hj) as (s & Hs & Hl).
  exists (intensity_array s). split; [|simpl; lia].
  change (map ?f ?l) with (f <$> l). by rewrite list_lookup_fmap, Hs.
Qed.

Lemma dict_get_map_distinct (targets : list Q) (g : Q -> list Q) (t : Q) :
  distinct_targets targets -> t ∈ targets ->
  dict_get t (map (fun t => (t, g t)) targets) = Some (g t).
Proof.
  induction targets as [|t0 targets IH]; intros Hdist Ht; [by apply elem_of_nil in Ht|].
  destruct Hdist as [Hhead Hdist]. simpl.
  apply elem_of_cons in Ht as [->|Ht].
  - assert (Qeq_bool t0 t0 = true) as -> by (apply Qeq_bool_iff; reflexivity). done.
  - destruct (Qeq_bool t0 t) eqn:E; [|by apply IH].
    apply Qeq_bool_iff in E. rewrite Forall_forall in Hhead.
    exfalso. apply (Hhead t Ht). by symmetry.
Qed.

(** X5: for pairwise different targets between the first and the last
    known energy and spectra aligned with the known energies (each at
    least as long as the first), the interpolator returns the targets in
    order, each with one value per m/z index of the first spectrum: the
    [np.interp] of the target against the known energies and the
    intensities of the spectra at that index. *)
Theorem X5_interpolated_values (spectra : list spectrum) (s0 : spectrum)
    (targets energies : list Q) :
  energies <> [] ->
  spectra !! 0%nat = Some s0 ->
  (forall j, (j < length energies)%nat ->
     exists s, spectra !! j = Some s /\
               (length (intensity_array s0) <= length (intensity_array s))%nat) ->
  distinct_targets targets ->
  (forall t, t ∈ targets -> inside_energies energies t) ->
  exists interpolated,
    interpolate_spectra spectra targets energies = Ok interpolated /\
    map fst interpolated = targets /\
    forall t, t ∈ targets ->
      exists v,
        dict_get t interpolated = Some v /\
        length v = length (intensity_array s0) /\
        forall i, (i < length (intensity_array s0))%nat ->
          v !! i = Some (interpolated_at_energy energies
                           (column (map intensity_array spectra) (length energies) i) t).
Proof.
  intros Hne Hs0 Hlen Hdist Hin.
  eexists. split; [by apply (interpolate_spectra_values spectra s0)|].
  split.
  - rewrite map_map. simpl. apply map_id.
  - intros t Ht. eexists. split; [by apply dict_get_map_distinct|].
    unfold interpolated_array. split; [by rewrite length_map, length_seq|].
    intros i Hi. change (map ?f ?l) with (f <$> l) at 1.
    by rewrite list_lookup_fmap, lookup_seq_lt.
Qed.

Lemma X5_interpolated_values_witness :
  exists interpolated,
    interpolate_spectra [sample_scan; Spectrum [100; 101; 102]%Q [8; 4; 0]%Q 0]
                        [5; 10]%Q [0; 10]%Q = Ok interpolated /\
    map fst interpolated = [5; 10]%Q /\
    forall t, t ∈ [5; 10]%Q ->
      exists v,
        dict_get t interpolated = Some v /\
        length v = 3%nat /\
        forall i, (i < 3)%nat ->
          v !! i = Some (interpolated_at_energy [0; 10]%Q
                           (column [[4; 8; 6]; [8; 4; 0]]%Q 2 i) t).
Proof.
  apply (X5_interpolated_values
           [sample_scan; Spectrum [100; 101; 102]%Q [8; 4; 0]%Q 0] sample_scan
           [5; 10]%Q [0; 10]%Q).
  - discriminate.
  - reflexivity.
  - intros j Hj. simpl in Hj.
    destruct j as [|[|j]]; [| |lia]; eexists; (split; [reflexivity | simpl; lia]).
  - simpl. repeat split; repeat constructor; intros H; vm_compute in H; discriminate.
  - intros t Ht. exists 0%Q, 10%Q. split; [reflexivity|]. split; [reflexivity|].
    apply elem_of_cons in Ht as [->|Ht]; [|apply list_elem_of_singleton in Ht as ->];
      split; unfold Qle; simpl; lia.
Defined.

(** ** Interpolation at a known energy *)

Lemma interp_from_sample (t : Q) (k : nat) (x0 y0 yk : Q) (pts : list (Q * Q)) :
  StronglySorted Qlt (x0 :: map fst pts) ->
  ((x0, y0) :: pts) !! k = Some (t, yk) ->
  Np.interp_from t x0 y0 pts = yk.
Proof.
  revert x0 y0 pts; induction k as [|k IH]; intros x0 y0 pts Hs Hk.
  - simpl in Hk. inversion Hk; subst. destruct pts as [|[x1 y1] pts]; [done|].
    simpl. apply StronglySorted_inv in Hs as [_ Hall].
    apply Forall_cons in Hall as [Hlt _]. simpl in Hlt.
    assert (Np.lt t x1 = true) as -> by by apply lt_spec.
    assert (Qeq_bool t t = true) as -> by (apply Qeq_bool_iff; reflexivity). done.
  - destruct pts as [|[x1 y1] pts]; [done|]. simpl in Hk. simpl.
    apply StronglySorted_inv in Hs as [Hs _].
    assert (x1 <= t)%Q as Hle.
    { destruct k as [|k]; [simpl in Hk; inversion Hk; apply Qle_refl|].
      simpl in Hk. apply StronglySorted_inv in Hs as [_ Hall].
      rewrite Forall_forall in Hall. apply Qlt_le_weak, Hall.
      apply list_elem_of_fmap. exists (t, yk). split; [done|].
      by eapply list_elem_of_lookup_2. }
    assert (Np.lt t x1 = false) as -> by by apply lt_false.
    by apply IH.
Qed.

Lemma sorted_lt_le (l : list Q) : StronglySorted Qlt l -> StronglySorted Qle l.
Proof.
  induction 1 as [|x l Hs IH Hall]; constructor; [done|].
  eapply Forall_impl; [exact Hall|]. intros y Hy. by apply Qlt_le_weak.
Qed.

Lemma sorted_first_le (l : list Q) (lo x : Q) :
  StronglySorted Qle l -> Py.first l = Ok lo -> x ∈ l -> (lo <= x)%Q.
Proof.
  intros Hs Hlo Hx. destruct l as [|y l]; [done|]. simpl in Hlo. inversion Hlo; subst y.
  apply StronglySorted_inv in Hs as [_ Hall].
  apply elem_of_cons in Hx as [->|Hx]; [apply Qle_refl|].
  rewrite Forall_forall in Hall. by apply Hall.
Qed.

(** A known energy lies between the first and the last known energy. *)
Lemma known_energy_inside (energies : list Q) (k : nat) (t : Q) :
  StronglySorted Qlt energies -> energies !! k = Some t ->
  inside_energies energies t.
Proof.
  intros Hs Hk.
  assert (energies <> []) as Hne by (intros ->; done).
  assert (t ∈ energies) as Hin by by eapply list_elem_of_lookup_2.
  destruct (first_ok energies Hne) as (lo & Hlo & _).
  exists lo, (List.last energies t). split; [done|].
  split; [by apply py_last_last|].
  apply sorted_lt_le in Hs. split.
  - by eapply sorted_first_le.
  - by apply last_sorted_ge.
Qed.

(** At a known energy in strictly increasing energies, [np.interp] returns
    the intensity recorded for that energy. *)
Lemma interpolated_at_known_energy (energies intensities : list Q) (k : nat) (t : Q) :
  StronglySorted Qlt energies ->
  length intensities = length energies ->
  energies !! k = Some t ->
  interpolated_at_energy energies intensities t = nth k intensities 0%Q.
Proof.
  intros Hs Hlen Hk.
  destruct (known_energy_inside energies k t Hs Hk) as (lo & hi & Hlo & Hhi & Hle1 & Hle2).
  destruct (lookup_lt_is_Some_2 intensities k) as [yk Hyk].
  { rewrite Hlen. by eapply lookup_lt_Some. }
  rewrite (nth_lookup_Some _ _ 0%Q _ Hyk).
  unfold interpolated_at_energy.
  assert (zip energies intensities !! k = Some (t, yk)) as Hzip.
  { apply lookup_zip_with_Some. eauto. }
  assert (map fst (zip energies intensities) = energies) as Hfst by (apply fst_zip; lia).
  destruct (zip energies intensities) as [|[x0 y0] rest] eqn:E; [done|].
  simpl in Hfst. unfold Np.interp_at.
  assert (x0 = lo) as -> by (rewrite <- Hfst in Hlo; simpl in Hlo; by inversion Hlo).
  assert (Np.lt t lo = false) as -> by by apply lt_false.
  assert (Np.last_abscissa lo rest = hi) as ->.
  { rewrite <- Hfst in Hhi. rewrite (py_last_last _ lo) in Hhi by done.
    unfold Np.last_abscissa. inversion Hhi as [Heq].
    destruct (map fst rest); reflexivity. }
  assert (Np.lt hi t = false) as -> by by apply lt_false.
  apply (interp_from_sample t k); [by rewrite Hfst | done].
Qed.

Lemma nth_column (intensity_arrays : list (list Q)) (n i k : nat) :
  (k < n)%nat ->
  nth k (column intensity_arrays n i) 0%Q = nth i (nth k intensity_arrays []) 0%Q.
Proof.
  intros Hk. apply nth_lookup_Some. unfold column.
  change (map ?f ?l) with (f <$> l). by rewrite list_lookup_fmap, lookup_seq_lt.
Qed.

Lemma map_nth_all (a : list Q) : map (fun i : nat => nth i a 0%Q) (seq 0 (length a)) = a.
Proof.
  apply list_eq. intros i. change (map ?f ?l) with (f <$> l).
  rewrite list_lookup_fmap.
  destruct (decide (i < length a)%nat) as [Hi|Hi].
  - rewrite lookup_seq_lt by done. simpl.
    destruct (lookup_lt_is_Some_2 a i Hi) as [y Hy]. rewrite Hy.
    by rewrite (nth_lookup_Some _ _ 0%Q _ Hy).
  - rewrite lookup_seq_ge by lia. simpl. symmetry. apply lookup_ge_None. lia.
Qed.

(** X6: interpolation is exact at a known energy.  For strictly
    increasing known energies and aligned spectra of one length, asking
    for the k-th known energy returns the intensities of the k-th spectrum
    unchanged. *)
Theorem X6_exact_at_known_energy (spectra : list spectrum) (s0 sk : spectrum)
    (energies : list Q) (k : nat) (t : Q) :
  StronglySorted Qlt energies ->
  energies !! k = Some t ->
  spectra !! 0%nat = Some s0 ->
  spectra !! k = Some sk ->
  (forall j, (j < length energies)%nat ->
     exists s, spectra !! j = Some s /\
               length (intensity_array s) = length (intensity_array s0)) ->
  interpolate_spectra spectra [t] energies = Ok [(t, intensity_array sk)].
Proof.
  intros Hs Hk Hs0 Hsk Hlen.
  assert (k < length energies)%nat as Hklt by by eapply lookup_lt_Some.
  rewrite (interpolate_spectra_values spectra s0 [t] energies).
  - simpl. do 3 f_equal. unfold interpolated_array.
    destruct (Hlen k Hklt) as (sk' & Hsk' & Hl).
    assert (sk' = sk) as -> by congruence.
    rewrite <- Hl. etrans; [|apply (map_nth_all (intensity_array sk))].
    apply map_ext. intros i.
    rewrite (interpolated_at_known_energy energies _ k t Hs);
      [|unfold column; by rewrite length_map, length_seq | done].
    rewrite nth_column by done. f_equal.
    apply nth_lookup_Some. change (map ?f ?l) with (f <$> l).
    by rewrite list_lookup_fmap, Hsk.
  - intros ->. done.
  - done.
  - intros j Hj. destruct (Hlen j Hj) as (s & Hsj & Hl). exists s. split; [done | lia].
  - simpl. split; constructor.
  - intros t' Ht'. apply list_elem_of_singleton in Ht' as ->.
    by apply (known_energy_inside energies k).
Qed.

Lemma X6_exact_at_known_energy_witness :
  interpolate_spectra
    [sample_scan; Spectrum [100; 101; 102]%Q [8; 4; 0]%Q 0;
     Spectrum [100; 101; 102]%Q [1; 2; 3]%Q 0]
    [5%Q] [0; 5; 10]%Q
  = Ok [(5%Q, [8; 4; 0]%Q)].
Proof.
  apply (X6_exact_at_known_energy
           [sample_scan; Spectrum [100; 101; 102]%Q [8; 4; 0]%Q 0;
            Spectrum [100; 101; 102]%Q [1; 2; 3]%Q 0]
           sample_scan (Spectrum [100; 101; 102]%Q [8; 4; 0]%Q 0)
           [0; 5; 10]%Q 1%nat 5%Q).
  - repeat constructor; done.
  - reflexivity.
  - reflexivity.
  - reflexivity.
  - intros j Hj. simpl in Hj.
    destruct j as [|[|[|j]]]; [| | |lia]; eexists; (split; [reflexivity | reflexivity]).
Defined.

Lemma mapM_raise_uniform {A B : Type} (f : A -> result B) (l : list A) (e : exn) :
  (forall x, x ∈ l -> is_ok (f x) \/ f x = Raise e) ->
  (exists x, x ∈ l /\ f x = Raise e) ->
  mapM f l = Raise e.
Proof.
  induction l as [|x l IH]; intros Hall (x' & Hx' & Hf); [by apply elem_of_nil in Hx'|].
  simpl. destruct (Hall x) as [[y Hy]|Hy]; [left| |by rewrite Hy].
  rewrite Hy. simpl. rewrite IH; [done | |].
  - intros z Hz. apply Hall. by right.
  - apply elem_of_cons in Hx' as [->|Hx']; [congruence | eauto].
Qed.

(** X7: with fewer spectra than known energies and at least one m/z bin
    the interpolator raises [IndexError] at the first bin, before any
    target is looked at: whatever the targets are, inside the range,
    outside it, or none at all. *)
Theorem X7_fewer_spectra_than_energies (spectra : list spectrum) (s0 : spectrum)
    (targets energies : list Q) :
  spectra !! 0%nat = Some s0 ->
  intensity_array s0 <> [] ->
  (length spectra < length energies)%nat ->
  interpolate_spectra spectra targets energies = Raise IndexError.
Proof.
  intros Hs0 Hbins Hshort. unfold interpolate_spectra.
  assert (Py.first (map intensity_array spectra) = Ok (intensity_array s0)) as ->.
  { destruct spectra; [done|]. simpl in Hs0. by inversion Hs0. }
  simpl bind.
  assert (exists n, seq 0 (length (intensity_array s0)) = 0%nat :: seq 1 n) as (n & ->).
  { destruct (intensity_array s0) as [|y0 ys]; [done|]. by exists (length ys). }
  simpl foldM. unfold interpolate_index at 1.
  rewrite (mapM_raise_uniform _ _ IndexError); [done| |].
  - intros j _. unfold Py.index.
    destruct (map intensity_array spectra !! j) as [a|]; simpl; [|by right].
    destruct (a !! 0%nat); [left; by eexists | by right].
  - exists (length spectra). split; [apply elem_of_seq; lia|].
    unfold Py.index. rewrite lookup_ge_None_2; [done|]. by rewrite length_map.
Qed.

Lemma X7_fewer_spectra_than_energies_witness :
  interpolate_spectra [sample_scan; sample_scan] [25%Q] default_energies
    = Raise IndexError.
Proof.
  apply (X7_fewer_spectra_than_energies [sample_scan; sample_scan] sample_scan
           [25%Q] default_energies).
  - reflexivity.
  - discriminate.
  - simpl. lia.
Defined.

(** ** Averaging: failures and the label *)

Lemma interp_raises (x xp fp : list Q) (left right : Q) :
  xp = [] \/ length xp <> length fp ->
  Np.interp x xp fp left right = Raise ValueError.
Proof.
  intros Hbad. unfold Np.interp.
  destruct (length xp =? length fp)%nat eqn:E; simpl; [|done].
  apply Nat.eqb_eq in E. destruct Hbad as [->|Hne]; [|done].
  done.
Qed.

Lemma interp_raise_kind (x xp fp : list Q) (left right : Q) (e : exn) :
  Np.interp x xp fp left right = Raise e -> e = ValueError.
Proof.
  unfold Np.interp. destruct (negb _); [by inversion 1|].
  destruct (zip xp fp) as [|[x0 y0] rest]; by inversion 1.
Qed.

Lemma merge_loop_raises (grid acc : list Q) (spectra : list spectrum) :
  (exists s, s ∈ spectra /\
             (mz_array s = [] \/ length (mz_array s) <> length (intensity_array s))) ->
  merge_loop grid acc spectra = Raise ValueError.
Proof.
  revert acc; induction spectra as [|s spectra IH]; intros acc (s' & Hs' & Hbad).
  - by apply elem_of_nil in Hs'.
  - simpl.
    destruct (Np.interp grid (mz_array s) (intensity_array s) 0 0) as [v|e] eqn:E; simpl.
    + apply IH. apply elem_of_cons in Hs' as [->|Hs']; [|eauto].
      rewrite interp_raises in E by done. done.
    + by rewrite (interp_raise_kind _ _ _ _ _ _ E).
Qed.

(** X11: when the grid can be built but some scan has no m/z value or a
    number of intensities different from its number of m/z values, the
    averager raises [ValueError]; it returns nothing and writes nothing. *)
Theorem X11_malformed_scan (spectra : list spectrum) (bin_width : option Q)
    (fs : pyval) (h : store) :
  is_ok (reference_grid spectra bin_width h) ->
  (exists s, s ∈ spectra /\
             (mz_array s = [] \/ length (mz_array s) <> length (intensity_array s))) ->
  average_spectra spectra bin_width fs h = (Raise ValueError, h).
Proof.
  intros [grid Hgrid] Hbad. unfold average_spectra, merged.
  rewrite Hgrid. simpl. by rewrite merge_loop_raises.
Qed.

Lemma X11_malformed_scan_witness :
  average_spectra [sample_scan; Spectrum [100; 101]%Q [5]%Q 0] None PyNone sample_store
    = (Raise ValueError, sample_store).
Proof.
  apply X11_malformed_scan.
  - eexists. vm_compute. reflexivity.
  - exists (Spectrum [100; 101]%Q [5]%Q 0). split; [right; left|].
    right. simpl. lia.
Defined.

(** X12: a successful call writes one thing: at the [scanList] of the
    first scan, which the returned spectrum refers to, the filter string
    becomes the label made of the start times of the first and the last
    scan and of the [filter_string] argument; the scan window and the
    start time stored there, and everything at other locations, stay. *)
Theorem X12_average_writes_label (spectra : list spectrum) (bin_width : option Q)
    (fs : pyval) (h h' : store) (avg : spectrum) :
  average_spectra spectra bin_width fs h = (Ok avg, h') ->
  exists s0 s1 info0 info1,
    Py.first spectra = Ok s0 /\ Py.last spectra = Ok s1 /\
    h !! scanList s0 = Some info0 /\ h !! scanList s1 = Some info1 /\
    scanList avg = scanList s0 /\
    h' = <[scanList s0 :=
             ScanInfo (scan_window_lower_limit info0) (scan_window_upper_limit info0)
                      (scan_start_time info0)
                      (Some (Fmt.av_label (scan_start_time info0)
                                          (scan_start_time info1) fs))]> h.
Proof.
  intros Hok.
  apply average_spectra_ok_inv in Hok as (s0 & label & Hfirst & Hlabel & _ & Hloc & ->).
  unfold new_filter_string in Hlabel. rewrite Hfirst in Hlabel. simpl in Hlabel.
  unfold scan_of in Hlabel.
  destruct (h !! scanList s0) as [info0|] eqn:Hinfo0; [|done]. simpl in Hlabel.
  destruct (Py.last spectra) as [s1|] eqn:Hlast; [|done]. simpl in Hlabel.
  destruct (h !! scanList s1) as [info1|] eqn:Hinfo1; [|done]. simpl in Hlabel.
  inversion Hlabel; subst label.
  exists s0, s1, info0, info1. repeat split; try done.
  apply map_eq. intros l. destruct (decide (l = scanList s0)) as [->|Hne].
  - by rewrite lookup_alter_eq, lookup_insert_eq, Hinfo0.
  - by rewrite lookup_alter_ne, lookup_insert_ne.
Qed.

Lemma X12_average_writes_label_witness :
  exists s0 s1 info0 info1,
    Py.first [sample_scan] = Ok s0 /\ Py.last [sample_scan] = Ok s1 /\
    sample_store !! scanList s0 = Some info0 /\
    sample_store !! scanList s1 = Some info1 /\
    0%nat = scanList s0 /\
    (average_spectra [sample_scan] None (PyInt 10) sample_store).2 =
      <[scanList s0 :=
          ScanInfo (scan_window_lower_limit info0) (scan_window_upper_limit info0)
                   (scan_start_time info0)
                   (Some (Fmt.av_label (scan_start_time info0)
                                       (scan_start_time info1) (PyInt 10)))]> sample_store.
Proof.
  eapply (X12_average_writes_label [sample_scan] None (PyInt 10) sample_store
            (average_spectra [sample_scan] None (PyInt 10) sample_store).2
            (Spectrum _ _ 0)).
  vm_compute. reflexivity.
Defined.

Lemma scan_of_alter (h : store) (l l' : loc) (label : string) :
  scan_of (alter (set_filter_string label) l h) l' =
    match scan_of h l' with
    | Ok info => Ok (if decide (l' = l) then set_filter_string label info else info)
    | Raise e => Raise e
    end.
Proof.
  unfold scan_of. destruct (decide (l' = l)) as [->|Hne].
  - rewrite lookup_alter_eq. by destruct (h !! l).
  - rewrite lookup_alter_ne by done. by destruct (h !! l').
Qed.

Lemma reference_grid_alter (spectra : list spectrum) (bin_width : option Q)
    (h : store) (l : loc) (label : string) :
  reference_grid spectra bin_width (alter (set_filter_string label) l h)
    = reference_grid spectra bin_width h.
Proof.
  unfold reference_grid. destruct (Py.first spectra) as [s0|]; [|done]. simpl.
  destruct (match bin_width with
            | Some w => Ok w
            | None => Np.min (Np.diff (Np.unique (mz_array s0)))
            end) as [w|]; [|done].
  simpl. rewrite scan_of_alter. destruct (scan_of h (scanList s0)) as [info|]; [|done].
  simpl. by destruct (decide (scanList s0 = l)).
Qed.

Lemma new_filter_string_alter (spectra : list spectrum) (fs : pyval)
    (h : store) (l : loc) (label : string) :
  new_filter_string spectra fs (alter (set_filter_string label) l h)
    = new_filter_string spectra fs h.
Proof.
  unfold new_filter_string. destruct (Py.first spectra) as [s0|]; [|done]. simpl.
  rewrite scan_of_alter. destruct (scan_of h (scanList s0)) as [info0|]; [|done]. simpl.
  destruct (Py.last spectra) as [s1|]; [|done]. simpl.
  rewrite scan_of_alter. destruct (scan_of h (scanList s1)) as [info1|]; [|done]. simpl.
  by destruct (decide (scanList s0 = l)), (decide (scanList s1 = l)).
Qed.

(** X13: averaging the same scans a second time, in the store the first
    call left, returns the same spectrum and leaves the store as it is:
    the first call changed nothing the averager reads. *)
Theorem X13_average_twice (spectra : list spectrum) (bin_width : option Q)
    (fs : pyval) (h h' : store) (avg : spectrum) :
  average_spectra spectra bin_width fs h = (Ok avg, h') ->
  average_spectra spectra bin_width fs h' = (Ok avg, h').
Proof.
  intros Hok.
  apply average_spectra_ok_inv in Hok as (s0 & label & Hfirst & Hlabel & Hmerged & Hloc & ->).
  unfold average_spectra, merged in *.
  rewrite reference_grid_alter, new_filter_string_alter, Hlabel, Hfirst.
  destruct (reference_grid spectra bin_width h) as [grid|]; [|done]. simpl in *.
  destruct (merge_loop grid (Np.zeros (length grid)) spectra) as [ys|]; [|done].
  simpl in *. inversion Hmerged as [[Hmz Hint]].
  destruct avg as [mz ints l]. simpl in *. subst. f_equal.
  apply map_eq. intros l'. destruct (decide (l' = scanList s0)) as [->|Hne].
  - rewrite !lookup_alter_eq. by destruct (h !! scanList s0).
  - by rewrite !lookup_alter_ne.
Qed.

Lemma X13_average_twice_witness :
  exists avg,
    average_spectra [sample_scan] None (PyInt 10)
      (average_spectra [sample_scan] None (PyInt 10) sample_store).2
    = (Ok avg, (average_spectra [sample_scan] None (PyInt 10) sample_store).2) /\
    Forall2 Qeq (mz_array avg) [100; 101; 102]%Q /\
    Forall2 Qeq (intensity_array avg) [4; 8; 6]%Q.
Proof.
  eexists. split.
  - eapply (X13_average_twice [sample_scan] None (PyInt 10) sample_store).
    vm_compute. reflexivity.
  - split; vm_compute; repeat constructor.
Defined.

(** ** Centroids: failures *)

Lemma index_raise_kind {A : Type} (l : list A) (i : nat) (e : exn) :
  Py.index l i = Raise e -> e = IndexError.
Proof. unfold Py.index. destruct (l !! i); by inversion 1. Qed.

Lemma take_range_raise_kind (a : list Q) (lo hi : Z) (e : exn) :
  Np.take_range a lo hi = Raise e -> e = IndexError.
Proof.
  unfold Np.take_range. intros H. apply mapM_raise in H as (i & _ & H).
  unfold Np.item in H.
  destruct (_ && _)%bool; [by apply index_raise_kind in H|].
  destruct (_ && _)%bool; [by apply index_raise_kind in H|].
  by inversion H.
Qed.

Lemma centroid_of_raise_kind (s : spectrum) (props : properties) (i : nat) (e : exn) :
  centroid_of s props i = Raise e -> e = IndexError.
Proof.
  unfold centroid_of.
  destruct (Py.index (left_ips props) i) as [l|e1] eqn:E1; simpl;
    [|intros H; inversion H; subst; by apply index_raise_kind in E1].
  destruct (Py.index (right_ips props) i) as [r|e2] eqn:E2; simpl;
    [|intros H; inversion H; subst; by apply index_raise_kind in E2].
  destruct (Np.take_range (mz_array s) _ _) as [mzs|e3] eqn:E3; simpl;
    [|intros H; inversion H; subst; by apply take_range_raise_kind in E3].
  destruct (Np.take_range (intensity_array s) _ _) as [ints|e4] eqn:E4; simpl;
    [done|intros H; inversion H; subst; by apply take_range_raise_kind in E4].
Qed.

Lemma take_range_beyond (a : list Q) (lo hi : Z) :
  (0 <= lo)%Z -> (lo <= hi)%Z -> (Z.of_nat (length a) <= hi)%Z ->
  Np.take_range a lo (hi + 1) = Raise IndexError.
Proof.
  intros Hlo Hle Hhi. unfold Np.take_range.
  apply mapM_raise_uniform.
  - intros i _. destruct (Np.item a (lo + Z.of_nat i)) as [y|e] eqn:E; [left; by eexists|].
    right. f_equal. unfold Np.item in E.
    destruct (_ && _)%bool; [by apply index_raise_kind in E|].
    destruct (_ && _)%bool; [by apply index_raise_kind in E|].
    by inversion E.
  - exists (Z.to_nat (hi - lo)). split; [apply elem_of_seq; lia|].
    unfold Np.item. replace (lo + Z.of_nat (Z.to_nat (hi - lo)))%Z with hi by lia.
    destruct (Z.ltb_spec hi (Z.of_nat (length a))); [lia|].
    rewrite andb_false_r.
    destruct (Z.ltb_spec hi 0); [lia|]. by rewrite andb_false_r.
Qed.

(** X15: the only exception [return_centroid] raises is [IndexError], and
    it raises it, returning no centroid at all, when [properties] has
    fewer left or right positions than there are peaks, or when the right
    bound of some peak lies beyond the last m/z value. *)
Theorem X15_centroid_index_error (spectrum : spectrum) (peaks : list nat)
    (props : properties) :
  (forall e, return_centroid spectrum peaks props = Raise e -> e = IndexError) /\
  ((length (left_ips props) < length peaks)%nat \/
   (length (right_ips props) < length peaks)%nat ->
   return_centroid spectrum peaks props = Raise IndexError) /\
  (forall i l r,
     (i < length peaks)%nat ->
     left_ips props !! i = Some l -> right_ips props !! i = Some r ->
     (0 <= Py.int_of_float l <= Py.int_of_float r)%Z ->
     (Z.of_nat (length (mz_array spectrum)) <= Py.int_of_float r)%Z ->
     return_centroid spectrum peaks props = Raise IndexError).
Proof.
  assert (forall i, is_ok (centroid_of spectrum props i) \/
                    centroid_of spectrum props i = Raise IndexError) as Hkind.
  { intros i. destruct (centroid_of spectrum props i) as [c|e] eqn:E; [left; by eexists|].
    right. f_equal. by eapply centroid_of_raise_kind. }
  split; [|split].
  - intros e H. apply mapM_raise in H as (i & _ & H). by eapply centroid_of_raise_kind.
  - intros Hshort. apply mapM_raise_uniform; [auto|].
    destruct (decide (length (left_ips props) < length peaks)%nat) as [Hl|Hl].
    + exists (length (left_ips props)). split; [apply elem_of_seq; lia|].
      unfold centroid_of, Py.index. by rewrite lookup_ge_None_2.
    + assert (length (right_ips props) < length peaks)%nat as Hr by (destruct Hshort; lia).
      exists (length (right_ips props)). split; [apply elem_of_seq; lia|].
      unfold centroid_of, Py.index.
      destruct (left_ips props !! length (right_ips props)); [|done]. simpl.
      by rewrite lookup_ge_None_2.
  - intros i l r Hi Hl Hr Hlr Hbeyond. apply mapM_raise_uniform; [auto|].
    exists i. split; [apply elem_of_seq; lia|].
    unfold centroid_of, Py.index. rewrite Hl, Hr. simpl.
    rewrite take_range_beyond by lia. done.
Qed.

Lemma X15_centroid_index_error_witness :
  return_centroid (Spectrum [1; 2; 3]%Q [0; 10; 0]%Q 0) [1%nat]
                  (Properties [0%Q] [(7 # 2)%Q]) = Raise IndexError.
Proof.
  apply (proj2 (proj2 (X15_centroid_index_error
                         (Spectrum [1; 2; 3]%Q [0; 10; 0]%Q 0) [1%nat]
                         (Properties [0%Q] [(7 # 2)%Q]))) 0%nat 0%Q (7 # 2)%Q).
  - simpl. lia.
  - reflexivity.
  - reflexivity.
  - vm_compute. split; discriminate.
  - vm_compute. discriminate.
Defined.

(** ** Peak detection: the threshold *)

Section ThresholdFacts.

Variable keep_distance keep_prominence keep_width : list Q -> list nat -> Q -> nat -> bool.
Variable peak_properties : list Q -> list nat -> properties.

Lemma centroid_mode_result (spectrum : spectrum) (threshold distance prominence width : Q) :
  intensity_array spectrum <> [] ->
  exists m,
    Np.max (intensity_array spectrum) = Ok m /\
    m ∈ intensity_array spectrum /\
    (forall y, y ∈ intensity_array spectrum -> (y <= m)%Q) /\
    peak_detection keep_distance keep_prominence keep_width peak_properties
      spectrum threshold distance prominence width true
    = Ok (Peaks (Np.where_gt (intensity_array spectrum)
                             (Ieee.mul m (Ieee.div threshold 100)))).
Proof.
  intros Hne. destruct (max_spec _ Hne) as (m & Hmax & Hin & Hall).
  exists m. unfold peak_detection. rewrite Hmax. by simpl.
Qed.

Lemma where_gt_spec (a : list Q) (t : Q) (i : nat) :
  i ∈ Np.where_gt a t <-> exists y, a !! i = Some y /\ (t < y)%Q.
Proof.
  unfold Np.where_gt. rewrite where_gt_from_spec. rewrite Nat.sub_0_r.
  split; [intros [_ H]; done | intros H; split; [lia | done]].
Qed.

End ThresholdFacts.

(** X16: in centroid mode a threshold of 100 per cent or more detects
    nothing when the largest intensity is not negative: no intensity is
    strictly above the maximum.  The intensities are doubles, so that the
    rounded product of the maximum and a factor of at least 1 is not below
    the maximum. *)
Theorem X16_threshold_of_100_percent
    (keep_distance keep_prominence keep_width : list Q -> list nat -> Q -> nat -> bool)
    (peak_properties : list Q -> list nat -> properties)
    (spectrum : spectrum) (threshold distance prominence width : Q) :
  Forall (fun y => Ieee.is_float64 y = true) (intensity_array spectrum) ->
  (exists y, y ∈ intensity_array spectrum /\ (0 <= y)%Q) ->
  (100 <= threshold)%Q ->
  peak_detection keep_distance keep_prominence keep_width peak_properties
    spectrum threshold distance prominence width true = Ok (Peaks []).
Proof.
  intros Hdouble (y0 & Hy0 & Hpos) Ht.
  destruct (centroid_mode_result keep_distance keep_prominence keep_width peak_properties
              spectrum threshold distance prominence width)
    as (m & _ & Hin & Hall & ->).
  { intros Hnil. rewrite Hnil in Hy0. by apply elem_of_nil in Hy0. }
  do 2 f_equal. apply where_gt_from_none. intros y Hy.
  pose proof (Hall y Hy) as Hym. pose proof (Hall y0 Hy0) as Hm.
  assert (Ieee.float64 m == m)%Q as Hmd.
  { apply Qeq_bool_iff. by apply (proj1 (Forall_forall _ _) Hdouble). }
  assert (1 <= Ieee.div threshold 100)%Q as Hfrac.
  { assert (Ieee.float64 1 == 1)%Q as <- by (vm_compute; reflexivity).
    apply float64_le. apply Qle_shift_div_l; [reflexivity|]. lra. }
  assert (m <= Ieee.mul m (Ieee.div threshold 100))%Q as Hthr.
  { rewrite <- Hmd at 1. apply float64_le.
    set (r := Ieee.div threshold 100) in *. nra. }
  lra.
Qed.

Lemma X16_threshold_of_100_percent_witness :
  peak_detection (fun _ _ _ _ => true) (fun _ _ _ _ => true) (fun _ _ _ _ => true)
    (fun _ _ => Properties [] [])
    (Spectrum [100; 101; 102]%Q [4; 8; 6]%Q 0) 100 4 (8 # 10) 2 true = Ok (Peaks []).
Proof.
  apply X16_threshold_of_100_percent.
  - repeat (constructor; [vm_compute; reflexivity|]). constructor.
  - exists 4%Q. split; [left|]. unfold Qle. simpl. lia.
  - apply Qle_refl.
Defined.

(** X18: in centroid mode raising the threshold never adds a peak: for
    a largest intensity that is not negative, every index detected at a
    threshold is detected at every lower threshold. *)
Theorem X18_threshold_monotone
    (keep_distance keep_prominence keep_width : list Q -> list nat -> Q -> nat -> bool)
    (peak_properties : list Q -> list nat -> properties)
    (spectrum : spectrum) (low high distance prominence width : Q) :
  (exists y, y ∈ intensity_array spectrum /\ (0 <= y)%Q) ->
  (low <= high)%Q ->
  exists peaks_low peaks_high,
    peak_detection keep_distance keep_prominence keep_width peak_properties
      spectrum low distance prominence width true = Ok (Peaks peaks_low) /\
    peak_detection keep_distance keep_prominence keep_width peak_properties
      spectrum high distance prominence width true = Ok (Peaks peaks_high) /\
    forall i, i ∈ peaks_high -> i ∈ peaks_low.
Proof.
  intros (y0 & Hy0 & Hpos) Hle.
  assert (intensity_array spectrum <> []) as Hne.
  { intros Hnil. rewrite Hnil in Hy0. by apply elem_of_nil in Hy0. }
  destruct (centroid_mode_result keep_distance keep_prominence keep_width peak_properties
              spectrum low distance prominence width Hne) as (m & Hmax & _ & Hall & ->).
  destruct (centroid_mode_result keep_distance keep_prominence keep_width peak_properties
              spectrum high distance prominence width Hne) as (m' & Hmax' & _ & _ & ->).
  assert (m' = m) as -> by congruence.
  do 2 eexists. split; [done|]. split; [done|].
  intros i Hi. apply where_gt_spec in Hi as (y & Hy & Hlt).
  apply where_gt_spec. exists y. split; [done|].
  pose proof (Hall y0 Hy0) as Hm.
  assert (Ieee.div low 100 <= Ieee.div high 100)%Q as Hfrac.
  { apply float64_le. unfold Qdiv. apply Qmult_le_compat_r; [done|].
    unfold Qle. simpl. lia. }
  assert (Ieee.mul m (Ieee.div low 100) <= Ieee.mul m (Ieee.div high 100))%Q as Hthr.
  { apply float64_le. set (rl := Ieee.div low 100) in *.
    set (rh := Ieee.div high 100) in *. nra. }
  lra.
Qed.

Lemma X18_threshold_monotone_witness :
  exists peaks_low peaks_high,
    peak_detection (fun _ _ _ _ => true) (fun _ _ _ _ => true) (fun _ _ _ _ => true)
      (fun _ _ => Properties [] [])
      (Spectrum [100; 101; 102]%Q [4; 8; 6]%Q 0) 40 4 (8 # 10) 2 true
      = Ok (Peaks peaks_low) /\
    peak_detection (fun _ _ _ _ => true) (fun _ _ _ _ => true) (fun _ _ _ _ => true)
      (fun _ _ => Properties [] [])
      (Spectrum [100; 101; 102]%Q [4; 8; 6]%Q 0) 80 4 (8 # 10) 2 true
      = Ok (Peaks peaks_high) /\
    forall i, i ∈ peaks_high -> i ∈ peaks_low.
Proof.
  apply (X18_threshold_monotone _ _ _ _ (Spectrum [100; 101; 102]%Q [4; 8; 6]%Q 0)).
  - exists 4%Q. split; [left|]. unfold Qle. simpl. lia.
  - unfold Qle. simpl. lia.
Defined.

(** ** Peak detection: profile mode *)

Lemma plateau_end_bounds (x : list Q) (v : Q) (i_max i_ahead fuel : nat) :
  (i_ahead <= i_max)%nat ->
  (i_ahead <= Scipy.plateau_end x v i_max i_ahead fuel <= i_max)%nat.
Proof.
  revert i_ahead; induction fuel as [|fuel IH]; intros i_ahead Hle; simpl; [lia|].
  destruct (Nat.ltb_spec i_ahead i_max); simpl; [|lia].
  destruct (Qeq_bool (nth i_ahead x 0%Q) v); [|lia].
  destruct (IH (S i_ahead)); lia.
Qed.

Lemma local_maxima_loop_interior (x : list Q) (i_max i fuel p : nat) :
  p ∈ Scipy.local_maxima_loop x i_max i fuel -> (i <= p < i_max)%nat.
Proof.
  revert i; induction fuel as [|fuel IH]; intros i; cbn -[Nat.div Nat.ltb];
    [intros Hnil; by apply elem_of_nil in Hnil|].
  destruct (Nat.ltb_spec i i_max); [|intros Hnil; by apply elem_of_nil in Hnil].
  pose proof (plateau_end_bounds x (nth i x 0%Q) i_max (S i) (length x)) as Hend.
  destruct (Np.lt (nth (i - 1) x 0%Q) (nth i x 0%Q)).
  - destruct (Np.lt _ (nth i x 0%Q)).
    + intros Hp. apply elem_of_cons in Hp as [->|Hp].
      * assert (i <= (i + (Scipy.plateau_end x (nth i x 0%Q) i_max (S i) (length x) - 1)) / 2)%nat.
        { apply Nat.div_le_lower_bound; lia. }
        assert ((i + (Scipy.plateau_end x (nth i x 0%Q) i_max (S i) (length x) - 1)) / 2
                < i_max)%nat.
        { apply Nat.Div0.div_lt_upper_bound. lia. }
        lia.
      * apply IH in Hp. lia.
    + intros Hp. apply IH in Hp. lia.
  - intros Hp. apply IH in Hp. lia.
Qed.

(** X19: in profile mode a distance below 1 is refused with
    [ValueError]; otherwise every peak returned is an inner sample (never
    the first, never the last) whose intensity is at least the relative
    threshold of line 15, the product of the maximum and threshold/100
    computed in doubles. *)
Theorem X19_profile_mode_peaks
    (keep_distance keep_prominence keep_width : list Q -> list nat -> Q -> nat -> bool)
    (peak_properties : list Q -> list nat -> properties)
    (spectrum : spectrum) (threshold distance prominence width : Q) :
  intensity_array spectrum <> [] ->
  exists m,
    Np.max (intensity_array spectrum) = Ok m /\
    ((distance < 1)%Q ->
     peak_detection keep_distance keep_prominence keep_width peak_properties
       spectrum threshold distance prominence width false = Raise ValueError) /\
    ((1 <= distance)%Q ->
     exists peaks props,
       peak_detection keep_distance keep_prominence keep_width peak_properties
         spectrum threshold distance prominence width false
       = Ok (PeaksWithProperties peaks props) /\
       forall p, p ∈ peaks ->
         (0 < p < length (intensity_array spectrum) - 1)%nat /\
         (Ieee.mul m (Ieee.div threshold 100) <= nth p (intensity_array spectrum) 0)%Q).
Proof.
  intros Hne. destruct (max_spec _ Hne) as (m & Hmax & _ & _).
  exists m. split; [done|]. unfold peak_detection, find_peaks. rewrite Hmax. simpl.
  split.
  - intros Hd. apply lt_spec in Hd. by rewrite Hd.
  - intros Hd. apply lt_false in Hd. rewrite Hd. simpl.
    do 2 eexists. split; [reflexivity|].
    intros p Hp. unfold select in Hp.
    apply list_elem_of_filter in Hp as [_ Hp].
    apply list_elem_of_filter in Hp as [_ Hp].
    apply list_elem_of_filter in Hp as [_ Hp].
    apply list_elem_of_filter in Hp as [Hheight Hp].
    unfold Scipy.local_maxima in Hp. apply local_maxima_loop_interior in Hp.
    split; [lia|]. unfold keep_height in Hheight. by apply Qle_bool_iff.
Qed.

(** The witness is a peak that [find_peaks] keeps with the default
    parameters of the detector: prominence 10, width 3.5 at half height,
    between the positions 1.25 and 4.75. *)
Lemma X19_profile_mode_peaks_witness :
  exists peaks props,
    peak_detection (fun _ _ _ _ => true) (fun _ _ _ _ => true) (fun _ _ _ _ => true)
      (fun _ _ => Properties [(5 # 4)%Q] [(19 # 4)%Q])
      (Spectrum [100; 101; 102; 103; 104; 105; 106]%Q [0; 4; 8; 10; 8; 4; 0]%Q 0)
      5 4 (8 # 10) 2 false
    = Ok (PeaksWithProperties peaks props) /\
    forall p, p ∈ peaks ->
      (0 < p < length [0; 4; 8; 10; 8; 4; 0]%Q - 1)%nat /\
      (Ieee.mul 10 (Ieee.div 5 100) <= nth p [0; 4; 8; 10; 8; 4; 0]%Q 0)%Q.
Proof.
  destruct (X19_profile_mode_peaks
              (fun _ _ _ _ => true) (fun _ _ _ _ => true) (fun _ _ _ _ => true)
              (fun _ _ => Properties [(5 # 4)%Q] [(19 # 4)%Q])
              (Spectrum [100; 101; 102; 103; 104; 105; 106]%Q [0; 4; 8; 10; 8; 4; 0]%Q 0)
              5 4 (8 # 10) 2)
    as (m & Hm & _ & Hok).
  - discriminate.
  - vm_compute in Hm. injection Hm as <-. apply Hok. unfold Qle. simpl. lia.
Defined.

(** ** Fragment ions: further behaviour *)

Lemma append_empty_r (s : string) : s ++ "" = s.
Proof.
  induction s as [|c s IH]; [done|].
  change (String c (s ++ "") = String c s). by rewrite IH.
Qed.

Lemma append_assoc (a b c : string) : (a ++ b) ++ c = a ++ (b ++ c).
Proof.
  induction a as [|x a IH]; [done|].
  change (String x ((a ++ b) ++ c) = String x (a ++ (b ++ c))). by rewrite IH.
Qed.

Lemma join_cons (x : string) (l : list string) : Py.join (x :: l) = x ++ Py.join l.
Proof.
  unfold Py.join. destruct l as [|y l]; [|reflexivity].
  change (x = x ++ ""). by rewrite append_empty_r.
Qed.

Lemma join_app (a b : list string) : Py.join (a ++ b)%list = Py.join a ++ Py.join b.
Proof.
  induction a as [|x a IH]; [done|].
  change ((x :: a) ++ b)%list with (x :: (a ++ b)%list).
  by rewrite !join_cons, IH, append_assoc.
Qed.

Section MoreFragmentIonFacts.

Context {M : Type}.
Variable parse : string -> result (list string).
Variable fast_mass2 : string -> string -> Z -> result M.

Lemma get_fragments_aborts (sequence : string) (residues : list string)
    (before after : list string) (ion : string) (charge : Z) (e : exn) :
  parse sequence = Ok residues ->
  (forall x, x ∈ before -> is_ok (fragment_of fast_mass2 residues charge x)) ->
  fragment_of fast_mass2 residues charge ion = Raise e ->
  get_fragments parse fast_mass2 sequence (before ++ ion :: after)%list charge = Raise e.
Proof.
  intros Hparse Hbefore Hion. unfold get_fragments. rewrite Hparse. simpl.
  induction before as [|x before IH]; simpl.
  - by rewrite Hion.
  - destruct (Hbefore x) as [f Hf]; [left|]. rewrite Hf. simpl.
    rewrite IH; [done|]. intros y Hy. apply Hbefore. by right.
Qed.

End MoreFragmentIonFacts.

(** X20: an N-terminal fragment at position p and a C-terminal fragment
    at position q of the same sequence, with p + q the number of residues,
    split the sequence: the two subsequences, one after the other, are the
    whole sequence. *)
Theorem X20_complementary_fragments {M : Type}
    (fast_mass2 : string -> string -> Z -> result M)
    (residues : list string) (charge : Z)
    (ion_n ion_c t_n t_c : string) (p q : Z) (f_n f_c : fragment M) :
  Py.first_char ion_n = Ok t_n -> Py.int (Py.tail ion_n) = Ok p ->
  Py.first_char ion_c = Ok t_c -> Py.int (Py.tail ion_c) = Ok q ->
  is_nterm t_n = true -> is_nterm t_c = false ->
  (0 <= p)%Z -> (1 <= q)%Z -> (p + q = Z.of_nat (length residues))%Z ->
  fragment_of fast_mass2 residues charge ion_n = Ok f_n ->
  fragment_of fast_mass2 residues charge ion_c = Ok f_c ->
  f_seq f_n ++ f_seq f_c = Py.join residues.
Proof.
  intros Htn Hp Htc Hq Hn Hc Hp0 Hq1 Hsum Hfn Hfc.
  destruct (fragment_of_ok fast_mass2 _ _ _ _ _ _ Htn Hp Hfn) as (-> & _).
  destruct (fragment_of_ok fast_mass2 _ _ _ _ _ _ Htc Hq Hfc) as (-> & _).
  unfold ion_seq. rewrite Hn, Hc.
  rewrite slice_to_take by done. rewrite slice_from_drop by done.
  rewrite <- join_app.
  replace (length residues - Z.to_nat q)%nat with (Z.to_nat p) by lia.
  by rewrite take_drop.
Qed.

Lemma X20_complementary_fragments_witness :
  "MR" ++ "FA" = Py.join ["M"; "R"; "F"; "A"].
Proof.
  apply (X20_complementary_fragments Plain.fast_mass2 ["M"; "R"; "F"; "A"] 1
           "b2" "y2" "b" "y" 2 2
           (Fragment "MR" "b2" ("MR", "b", 1%Z) "b")
           (Fragment "FA" "y3" ("FA", "y", 1%Z) "y"));
    try reflexivity; lia.
Defined.

(** X21: the ions are handled in order and the first failure ends the
    call with no fragment returned, whatever succeeded before: an empty
    ion string fails with [IndexError], an ion whose text after the first
    character is not a number fails with [ValueError], and a failure of
    the mass calculation is passed on. *)
Theorem X21_first_failure_aborts {M : Type}
    (parse : string -> result (list string))
    (fast_mass2 : string -> string -> Z -> result M)
    (sequence : string) (residues : list string)
    (before after : list string) (ion : string) (charge : Z) :
  parse sequence = Ok residues ->
  (forall x, x ∈ before -> is_ok (fragment_of fast_mass2 residues charge x)) ->
  (ion = "" ->
   get_fragments parse fast_mass2 sequence (before ++ ion :: after)%list charge
     = Raise IndexError) /\
  (ion <> "" -> Py.int (Py.tail ion) = Raise ValueError ->
   get_fragments parse fast_mass2 sequence (before ++ ion :: after)%list charge
     = Raise ValueError) /\
  (forall t p e,
     Py.first_char ion = Ok t -> Py.int (Py.tail ion) = Ok p ->
     fast_mass2 (ion_seq residues t p) t charge = Raise e ->
     get_fragments parse fast_mass2 sequence (before ++ ion :: after)%list charge
       = Raise e).
Proof.
  intros Hparse Hbefore. split; [|split].
  - intros ->. by apply (get_fragments_aborts parse fast_mass2 _ residues).
  - intros Hne Hint. apply (get_fragments_aborts parse fast_mass2 _ residues); try done.
    unfold fragment_of. destruct ion as [|c ion]; [done|]. simpl in *. by rewrite Hint.
  - intros t p e Ht Hp He.
    apply (get_fragments_aborts parse fast_mass2 _ residues); try done.
    rewrite (fragment_of_result fast_mass2 _ _ _ _ _ Ht Hp). by rewrite He.
Qed.

Lemma X21_first_failure_aborts_witness :
  get_fragments Plain.parse Plain.fast_mass2 "MRFA" (["b1"; "y1"] ++ "bx" :: ["b2"])%list 1
    = Raise ValueError.
Proof.
  assert (forall x, x ∈ ["b1"; "y1"] ->
            is_ok (fragment_of Plain.fast_mass2 ["M"; "R"; "F"; "A"] 1 x)) as Hbefore.
  { intros x Hx.
    apply elem_of_cons in Hx as [->|Hx]; [by eexists|].
    apply list_elem_of_singleton in Hx as ->. by eexists. }
  apply (proj1 (proj2 (X21_first_failure_aborts Plain.parse Plain.fast_mass2
                         "MRFA" ["M"; "R"; "F"; "A"] ["b1"; "y1"] ["b2"] "bx" 1
                         eq_refl Hbefore)));
    [discriminate | reflexivity].
Defined.

(** ** [int(str(n))] and the labels that are requested again *)

Lemma digits_of_uint_acc (d : Decimal.uint) (acc : positive) :
  Py.digits (Z.pos acc) true (list_ascii_of_string (NilEmpty.string_of_uint d))
    = Some (Z.pos (Pos.of_uint_acc d acc)).
Proof.
  revert acc; induction d as [|d IH|d IH|d IH|d IH|d IH|d IH|d IH|d IH|d IH|d IH];
    intros acc; [done|..];
    cbn [NilEmpty.string_of_uint list_ascii_of_string Py.digits Pos.of_uint_acc];
    match goal with
    | |- context [Py.digit_of ?c] =>
        let v := eval vm_compute in (Py.digit_of c) in change (Py.digit_of c) with v
    end; cbv iota; rewrite <- IH; f_equal; lia.
Qed.

Lemma digits_of_uint (d : Decimal.uint) :
  Py.digits 0 true (list_ascii_of_string (NilEmpty.string_of_uint d))
    = Some (Z.of_N (Pos.of_uint d)).
Proof.
  induction d as [|d IH|d IH|d IH|d IH|d IH|d IH|d IH|d IH|d IH|d IH];
    [done | exact IH | ..];
    cbn [NilEmpty.string_of_uint list_ascii_of_string Py.digits Pos.of_uint];
    match goal with
    | |- context [Py.digit_of ?c] =>
        let v := eval vm_compute in (Py.digit_of c) in change (Py.digit_of c) with v
    end; cbv iota; apply digits_of_uint_acc.
Qed.

Lemma digits_first_digit (d : Decimal.uint) :
  d <> Decimal.Nil ->
  Py.digits 0 false (list_ascii_of_string (NilEmpty.string_of_uint d))
    = Py.digits 0 true (list_ascii_of_string (NilEmpty.string_of_uint d)).
Proof. destruct d; done. Qed.

Lemma uint_chars_not_space (d : Decimal.uint) :
  Forall (fun c => Py.is_space c = false)
         (list_ascii_of_string (NilEmpty.string_of_uint d)).
Proof. induction d; simpl; constructor; done. Qed.

Lemma lstrip_id (cs : list ascii) :
  Forall (fun c => Py.is_space c = false) cs -> Py.lstrip cs = cs.
Proof. destruct 1 as [|c cs Hc _]; simpl; [done | by rewrite Hc]. Qed.

Lemma strip_id (cs : list ascii) :
  Forall (fun c => Py.is_space c = false) cs -> Py.strip cs = cs.
Proof.
  intros H. unfold Py.strip. rewrite (lstrip_id cs H).
  rewrite lstrip_id by by apply List.Forall_rev. apply rev_involutive.
Qed.

Lemma digits_to_uint (p : positive) :
  Py.digits 0 false (list_ascii_of_string (NilEmpty.string_of_uint (Pos.to_uint p)))
    = Some (Z.pos p).
Proof.
  rewrite digits_first_digit by apply Unsigned.to_uint_nonnil.
  by rewrite digits_of_uint, Unsigned.of_to.
Qed.

(** [int(str(n)) = n] for every integer. *)
Lemma int_str (z : Z) : Py.int (Py.str z) = Ok z.
Proof.
  destruct z as [|p|p]; [reflexivity| |].
  - unfold Py.str, Py.int. cbn [Z.to_int NilZero.string_of_int].
    pose proof (Unsigned.to_uint_nonnil p) as Hnil.
    pose proof (digits_to_uint p) as Hd.
    pose proof (uint_chars_not_space (Pos.to_uint p)) as Hs.
    assert (NilZero.string_of_uint (Pos.to_uint p)
            = NilEmpty.string_of_uint (Pos.to_uint p)) as -> by by destruct (Pos.to_uint p).
    rewrite strip_id by done.
    destruct (Pos.to_uint p); [done|..];
      cbn [NilEmpty.string_of_uint list_ascii_of_string] in *; by rewrite Hd.
  - unfold Py.str, Py.int. cbn [Z.to_int NilZero.string_of_int].
    pose proof (Unsigned.to_uint_nonnil p) as Hnil.
    pose proof (digits_to_uint p) as Hd.
    pose proof (uint_chars_not_space (Pos.to_uint p)) as Hs.
    assert (NilZero.string_of_uint (Pos.to_uint p)
            = NilEmpty.string_of_uint (Pos.to_uint p)) as -> by by destruct (Pos.to_uint p).
    cbn [list_ascii_of_string].
    rewrite strip_id by (constructor; done).
    by rewrite Hd.
Qed.

Section LabelsAsIons.

Context {M : Type}.
Variable fast_mass2 : string -> string -> Z -> result M.

(** X23: a fragment whose type is not x, y or z is named by its label:
    requesting the returned label as an ion gives the same fragment again
    (subsequence, label, m/z and type), also where the ion was not written
    the way the label is, as in "b02". *)
Theorem X23_label_requested_again (_sequence : list string) (charge : Z)
    (ion : string) (f : fragment M) :
  is_cterm (f_type f) = false ->
  fragment_of fast_mass2 _sequence charge ion = Ok f ->
  fragment_of fast_mass2 _sequence charge (f_ion f) = Ok f.
Proof.
  intros Hc Hf.
  destruct ion as [|c tl]; [done|].
  destruct (Py.int (Py.tail (String c tl))) as [p|e] eqn:Hp;
    [|unfold fragment_of in Hf; simpl in Hf, Hp; by rewrite Hp in Hf].
  destruct (fragment_of_ok fast_mass2 _sequence charge (String c tl)
              (String c EmptyString) p f eq_refl Hp Hf) as (Hseq & Hion & Hty & Hm).
  rewrite Hty in Hc.
  unfold ion_label in Hion. rewrite Hc in Hion.
  destruct (is_nterm (String c EmptyString)) eqn:Hn; [|by rewrite Hion].
  change (String c EmptyString ++ Py.str p)%string with (String c (Py.str p)) in Hion.
  rewrite Hion.
  rewrite (fragment_of_result fast_mass2 _sequence charge (String c (Py.str p))
             (String c EmptyString) p eq_refl (int_str p)).
  rewrite Hm. simpl. unfold ion_label. rewrite Hn.
  destruct f as [s i m t]; simpl in *. by subst.
Qed.

(** X24: the label of an x, y or z fragment does not name that fragment.
    For a sequence of n residues the ion of type t at position p is
    labelled t followed by n - p + 1; requested as an ion, this label
    gives the fragment at position n - p + 1, whose label is t followed
    by p. *)
Theorem X24_cterm_label_mirrored (_sequence : list string) (charge : Z)
    (ion t : string) (p : Z) (f : fragment M) :
  is_cterm t = true ->
  Py.first_char ion = Ok t ->
  Py.int (Py.tail ion) = Ok p ->
  fragment_of fast_mass2 _sequence charge ion = Ok f ->
  let q := (Z.of_nat (length _sequence) - p + 1)%Z in
  f_ion f = (t ++ Py.str q)%string /\
  fragment_of fast_mass2 _sequence charge (f_ion f) =
    let* m := fast_mass2 (ion_seq _sequence t q) t charge in
    Ok (Fragment (ion_seq _sequence t q) (t ++ Py.str p)%string m t).
Proof.
  intros Hc Ht Hp Hf q.
  destruct (fragment_of_ok fast_mass2 _sequence charge ion t p f Ht Hp Hf)
    as (Hseq & Hion & Hty & Hm).
  pose proof (cterm_not_nterm t Hc) as Hn.
  unfold ion_label in Hion. rewrite Hn, Hc in Hion. fold q in Hion.
  split; [done|]. rewrite Hion.
  destruct ion as [|c tl]; [done|]. simpl in Ht. injection Ht as <-.
  change (String c EmptyString ++ Py.str q)%string with (String c (Py.str q)).
  rewrite (fragment_of_result fast_mass2 _sequence charge (String c (Py.str q))
             (String c EmptyString) q eq_refl (int_str q)).
  unfold ion_label. rewrite Hn, Hc.
  replace (Z.of_nat (length _sequence) - q + 1)%Z with p by (unfold q; lia).
  reflexivity.
Qed.

End LabelsAsIons.

Lemma X23_label_requested_again_witness :
  let f := Fragment "MR" "b2" ("MR", "b", 1%Z) "b" in
  fragment_of Plain.fast_mass2 ["M"; "R"; "F"; "A"] 1 "b02" = Ok f /\
  fragment_of Plain.fast_mass2 ["M"; "R"; "F"; "A"] 1 (f_ion f) = Ok f.
Proof.
  split; [reflexivity|].
  apply (X23_label_requested_again Plain.fast_mass2 ["M"; "R"; "F"; "A"] 1 "b02"); reflexivity.
Defined.

Lemma X24_cterm_label_mirrored_witness :
  let f := Fragment "FA" "y3" ("FA", "y", 1%Z) "y" in
  f_ion f = "y3" /\
  fragment_of Plain.fast_mass2 ["M"; "R"; "F"; "A"] 1 (f_ion f) =
    Ok (Fragment "RFA" "y2" ("RFA", "y", 1%Z) "y").
Proof.
  apply (X24_cterm_label_mirrored Plain.fast_mass2 ["M"; "R"; "F"; "A"] 1 "y2" "y" 2); reflexivity.
Defined.

(** ** The predefined data *)

Ltac options_of H :=
  repeat (apply elem_of_cons in H as [->|H]); [..|by apply elem_of_nil in H].

Ltac returned H := vm_compute in H; injection H as <-.

(** X25: every selection the sidebar can make has a file.  For a peptide,
    a charge state, a resolution and an energy ramp taken from the select
    boxes, the look-up that the application makes in the table of files
    (with no isolation) finds a URL that is not empty, so the file is
    downloaded and read. *)
Theorem X25_every_selection_has_a_file
    (selected_peptide selected_charge_state selected_resolution
     selected_energy_ramp : selection) :
  offered selected_peptide selected_charge_state selected_resolution
    selected_energy_ramp ->
  file_is_loaded
    (selected_file_url selected_peptide selected_charge_state selected_resolution
       selected_energy_ramp None) = true.
Proof.
  intros (Hp & (cs & Hcs & Hc) & (rs & Hrs & Hr) & (es & Hes & He)).
  cbn in Hp. options_of Hp;
    returned Hcs; cbn in Hc; options_of Hc;
    returned Hrs; cbn in Hr; options_of Hr;
    returned Hes; cbn in He; options_of He;
    vm_compute; reflexivity.
Qed.

Lemma X25_every_selection_has_a_file_witness :
  offered (Some "GRGDS") (Some "1+") (Some "Zoom") (Some "Iso 2") /\
  file_is_loaded
    (selected_file_url (Some "GRGDS") (Some "1+") (Some "Zoom") (Some "Iso 2") None)
    = true.
Proof.
  assert (offered (Some "GRGDS") (Some "1+") (Some "Zoom") (Some "Iso 2")) as H.
  { repeat split; [|eexists; split; [vm_compute; reflexivity|]..];
      cbn; repeat constructor. }
  split; [exact H|].
  exact (X25_every_selection_has_a_file _ _ _ _ H).
Defined.

(** X26: a peptide that is not in the table of options.  [get_options] and
    [get_resolutions] raise [KeyError] for it, whatever the option type and
    the charge state; [get_energy_ramp_options] tests for the peptide first
    and returns the default list with the single ramp "Iso 1". *)
Theorem X26_unknown_peptide (selected_peptide selected_charge_state : selection)
    (option_type : string) :
  in_dict selected_peptide peptide_options = false ->
  get_options selected_peptide option_type = RaisesKeyError /\
  get_resolutions selected_peptide selected_charge_state = RaisesKeyError /\
  get_energy_ramp_options selected_peptide selected_charge_state = Returns ["Iso 1"].
Proof.
  intros Hin.
  assert (forall t, get_options selected_peptide t = RaisesKeyError) as Hget.
  { intros t. unfold get_options, getitem. unfold in_dict in Hin.
    destruct selected_peptide as [s|]; [|done].
    by destruct (lookup_key s peptide_options). }
  split; [apply Hget|]. split.
  - unfold get_resolutions. rewrite !Hget. simpl. by case_bool_decide.
  - unfold get_energy_ramp_options. by rewrite Hin.
Qed.

Lemma X26_unknown_peptide_witness :
  in_dict (Some "Angiotensin") peptide_options = false /\
  get_options (Some "Angiotensin") "charge_states" = RaisesKeyError /\
  get_resolutions (Some "Angiotensin") (Some "2+") = RaisesKeyError /\
  get_energy_ramp_options (Some "Angiotensin") (Some "2+") = Returns ["Iso 1"].
Proof.
  split; [reflexivity|].
  apply (X26_unknown_peptide (Some "Angiotensin") (Some "2+") "charge_states").
  reflexivity.
Defined.
